(** * MoonTVPlus: the OpenList playback resolver and the detail-panel cascade

    Two units of the application are embedded here, each in a module of its
    own:

    - [OpenListPlay]: the route handler [GET] of
      [src/app/api/openlist/play/[token]/route.ts];
    - [DetailPanel]: the effect [fetchDetail] of the detail panel component.

    Both are asynchronous handlers that talk to collaborators outside the
    repository (the configuration store, the OpenList client, [fetch]).  The
    answers of these collaborators are inputs of the model, and every call
    made is recorded in a trace, so that "no call is made" is a statement
    about the trace. *)

From Stdlib Require Import String Ascii List ZArith NArith QArith Lia Bool.
Import ListNotations.

Set Implicit Arguments.

(** ** Calls and exceptions

    A computation yields either a thrown value or a result, together with the
    list of outward calls it made, in order. *)

Module Eff.

Section Monad.
Variables Ev Ex : Type.

Definition M (A : Type) : Type := ((Ex + A) * list Ev)%type.

Definition ret {A} (a : A) : M A := (inr a, []).

Definition throw {A} (e : Ex) : M A := (inl e, []).

Definition bind {A B} (m : M A) (f : A -> M B) : M B :=
  match m with
  | (inl e, t) => (inl e, t)
  | (inr a, t) => let (r, t') := f a in (r, t ++ t')
  end.

(** [await] of an outward call: the call is recorded, then its outcome is
    either returned or thrown. *)
Definition call {A} (ev : Ev) (outcome : Ex + A) : M A := (outcome, [ev]).

(** A computation that makes no call. *)
Definition lift {A} (r : Ex + A) : M A := (r, []).

(** Sequencing of steps that may throw but make no call. *)
Definition sbind {A B} (r : Ex + A) (f : A -> Ex + B) : Ex + B :=
  match r with
  | inl e => inl e
  | inr a => f a
  end.

(** [try { m } catch (e) { h e }] *)
Definition try_catch {A} (m : M A) (h : Ex -> M A) : M A :=
  match m with
  | (inl e, t) => let (r, t') := h e in (r, t ++ t')
  | (inr a, t) => (inr a, t)
  end.
End Monad.

Arguments ret {Ev Ex A} a.
Arguments throw {Ev Ex A} e.
Arguments bind {Ev Ex A B} m f.
Arguments call {Ev Ex A} ev outcome.
Arguments try_catch {Ev Ex A} m h.
Arguments lift {Ev Ex A} r.
Arguments sbind {Ex A B} r f.

End Eff.

Declare Scope eff_scope.
Delimit Scope eff_scope with eff.
Notation "x <- m ;; k" := (Eff.bind m (fun x => k))
  (at level 61, m at next level, right associativity) : eff_scope.
Notation "x <~ m ;; k" := (Eff.sbind m (fun x => k))
  (at level 61, m at next level, right associativity) : eff_scope.

(** ** The playback resolver *)

Module OpenListPlay.

Import Eff.
Local Open Scope string_scope.
Local Open Scope Z_scope.
Local Open Scope eff_scope.

(** Only equality, emptiness, concatenation and the test for a final ['/']
    are applied to strings by the handler, and these read the same on the
    bytes of a string as on its UTF-16 code units; strings are kept as
    [string] here. *)

(** A string is truthy when it is not empty; [null] and [undefined] are
    [None]. *)
Definition truthy (s : string) : bool :=
  match s with EmptyString => false | String _ _ => true end.

Definition truthy_opt (o : option string) : bool :=
  match o with Some s => truthy s | None => false end.

Definition str_of (o : option string) : string :=
  match o with Some s => s | None => "" end.

(** What [getAuthInfoFromCookie] hands back: [null], or an object whose
    [username] may be missing. *)
Record AuthInfo := { username : option string }.

Record OpenListConfig := {
  Enabled : bool;
  URL : string;
  Username : string;
  Password : string;
  RootPath : option string
}.

Record AdminConfig := { OpenListConfig_ : option OpenListConfig }.

(** The answer of [client.getFile]; [data] is [null] when the listing service
    reports a failure. *)
Record FileData := { raw_url : option string }.

Record FileResponse := {
  code : Z;
  message : string;
  data : option FileData
}.

(** Thrown values: an [Error] with its message, or the [TypeError] the
    engine raises when a property of [null] is read (its message depends on
    the engine and is not modelled). *)
Inductive thrown :=
| Thrown (msg : string)
| EngineTypeError.

(** The collaborators of the handler. *)
Record Env := {
  TVBOX_SUBSCRIBE_TOKEN : option string;
  getConfig : thrown + AdminConfig;
  getFile : string -> string -> string -> string -> thrown + FileResponse
}.

(** The request: the path parameter, the two query parameters as
    [searchParams.get] returns them, and the session read from the cookie. *)
Record Request := {
  token : string;
  folder : option string;
  fileName : option string;
  authInfo : option AuthInfo
}.

Inductive event :=
| LoadConfig
| GetFile (url user pass path : string).

(** [NextResponse.json(body, {status})] and [NextResponse.redirect(url)];
    what the framework does with the URL it is given is outside the model. *)
Inductive response :=
| Json (status : Z) (error : string) (details : option thrown)
| Redirect (url : string).

Definition status_of (r : response) : Z :=
  match r with
  | Json st _ _ => st
  | Redirect _ => 307
  end.

Definition is_redirect (r : response) : bool :=
  match r with Redirect _ => true | Json _ _ _ => false end.

(** [subscribeToken && requestToken === subscribeToken] *)
Definition hasValidToken (env : Env) (req : Request) : bool :=
  match TVBOX_SUBSCRIBE_TOKEN env with
  | Some s => truthy s && String.eqb (token req) s
  | None => false
  end.

(** [authInfo && authInfo.username] *)
Definition hasValidAuth (req : Request) : bool :=
  match authInfo req with
  | Some a => truthy_opt (username a)
  | None => false
  end.

Fixpoint endsWith_slash (s : string) : bool :=
  match s with
  | EmptyString => false
  | String c EmptyString => Ascii.eqb c "/"
  | String _ s' => endsWith_slash s'
  end.

(** [openListConfig.RootPath || '/'] *)
Definition rootPath_of (c : OpenListConfig) : string :=
  match RootPath c with
  | Some r => if truthy r then r else "/"
  | None => "/"
  end.

(** [`${rootPath}${rootPath.endsWith('/') ? '' : '/'}${folderName}`] *)
Definition folderPath (rootPath folderName : string) : string :=
  rootPath ++ (if endsWith_slash rootPath then "" else "/") ++ folderName.

(** [`${folderPath}/${fileName}`] *)
Definition filePath (rootPath folderName fileName : string) : string :=
  folderPath rootPath folderName ++ "/" ++ fileName.

Definition GET_body (env : Env) (req : Request) : M event thrown response :=
  if negb (hasValidToken env req) && negb (hasValidAuth req) then
    ret (Json 401 "未授权" None)
  else
    let folderName := folder req in
    let fileName' := fileName req in
    if negb (truthy_opt folderName) || negb (truthy_opt fileName') then
      ret (Json 400 "缺少参数" None)
    else
      config <- call LoadConfig (getConfig env) ;;
      match OpenListConfig_ config with
      | None => ret (Json 400 "OpenList 未配置或未启用" None)
      | Some oc =>
        if negb (Enabled oc) || negb (truthy (URL oc))
           || negb (truthy (Username oc)) || negb (truthy (Password oc)) then
          ret (Json 400 "OpenList 未配置或未启用" None)
        else
          let path := filePath (rootPath_of oc) (str_of folderName)
                               (str_of fileName') in
          fileResponse <-
            call (GetFile (URL oc) (Username oc) (Password oc) path)
                 (getFile env (URL oc) (Username oc) (Password oc) path) ;;
          if negb (code fileResponse =? 200) then
            ret (Json 500 "获取播放链接失败" None)
          else
            match data fileResponse with
            | None => throw EngineTypeError
            | Some d =>
              if negb (truthy_opt (raw_url d)) then
                ret (Json 500 "获取播放链接失败" None)
              else ret (Redirect (str_of (raw_url d)))
            end
      end.

(** The whole handler: whatever is thrown inside the [try] becomes a 500
    that carries the message of the thrown value. *)
Definition GET (env : Env) (req : Request) : response * list event :=
  match GET_body env req with
  | (inr r, t) => (r, t)
  | (inl e, t) => (Json 500 "获取失败" (Some e), t)
  end.

(** *** The join the specification asks for

    The specification describes the path as the three segments joined with
    exactly one separating slash at each join point.  [spec_join] is that
    join, written from the specification's words: whatever slashes end the
    left part or start the right part, one slash separates them. *)

Fixpoint rstrip_slash (s : string) : string :=
  match s with
  | EmptyString => EmptyString
  | String c s' =>
    match rstrip_slash s' with
    | EmptyString => if Ascii.eqb c "/" then EmptyString
                     else String c EmptyString
    | r => String c r
    end
  end.

Fixpoint lstrip_slash (s : string) : string :=
  match s with
  | EmptyString => EmptyString
  | String c s' => if Ascii.eqb c "/" then lstrip_slash s' else s
  end.

Definition spec_join (l r : string) : string :=
  rstrip_slash l ++ "/" ++ lstrip_slash r.

Definition spec_filePath (rootPath folderName fileName : string) : string :=
  spec_join (spec_join rootPath folderName) fileName.

Definition startsWith_slash (s : string) : bool :=
  match s with
  | EmptyString => false
  | String c _ => Ascii.eqb c "/"
  end.

(** The string ends with two slashes. *)
Fixpoint endsWith_two_slashes (s : string) : bool :=
  match s with
  | EmptyString => false
  | String c s' =>
    match s' with
    | String d EmptyString => Ascii.eqb c "/" && Ascii.eqb d "/"
    | _ => endsWith_two_slashes s'
    end
  end.

(** *** Statements about the handler *)

(** The caller is authorized: the path token is the configured, non-empty
    static token, or the session carries a non-empty user name. *)
Definition authorized (env : Env) (req : Request) : Prop :=
  (TVBOX_SUBSCRIBE_TOKEN env = Some (token req) /\ token req <> "")
  \/ (exists a u, authInfo req = Some a /\ username a = Some u /\ u <> "").

(** What the handler does once the first two gates are passed, by cases on
    the configuration and on the answer of the listing service. *)
Inductive upstream_case (env : Env) (req : Request)
  : response * list event -> Prop :=
| config_throws e :
    getConfig env = inl e ->
    upstream_case env req (Json 500 "获取失败" (Some e), [LoadConfig])
| not_configured cfg :
    getConfig env = inr cfg ->
    (OpenListConfig_ cfg = None
     \/ exists oc, OpenListConfig_ cfg = Some oc
                   /\ (Enabled oc = false \/ URL oc = "" \/ Username oc = ""
                       \/ Password oc = "")) ->
    upstream_case env req (Json 400 "OpenList 未配置或未启用" None, [LoadConfig])
| upstream_called cfg oc r :
    getConfig env = inr cfg ->
    OpenListConfig_ cfg = Some oc ->
    let path := filePath (rootPath_of oc) (str_of (folder req))
                         (str_of (fileName req)) in
    let ev := GetFile (URL oc) (Username oc) (Password oc) path in
    let answer := getFile env (URL oc) (Username oc) (Password oc) path in
    match answer with
    | inl e => r = Json 500 "获取失败" (Some e)
    | inr resp =>
      if code resp =? 200 then
        match data resp with
        | None => r = Json 500 "获取失败" (Some EngineTypeError)
        | Some d =>
          match raw_url d with
          | Some (String c u) => r = Redirect (String c u)
          | _ => r = Json 500 "获取播放链接失败" None
          end
        end
      else r = Json 500 "获取播放链接失败" None
    end ->
    upstream_case env req (r, [LoadConfig; ev]).

(** *** Sample collaborators and requests *)

Definition sample_config : OpenListConfig :=
  {| Enabled := true; URL := "http://list"; Username := "u";
     Password := "p"; RootPath := Some "/x/" |}.

Definition sample_env (resp : thrown + FileResponse) : Env :=
  {| TVBOX_SUBSCRIBE_TOKEN := Some "secret";
     getConfig := inr {| OpenListConfig_ := Some sample_config |};
     getFile := fun _ _ _ _ => resp |}.

Definition good_file : thrown + FileResponse :=
  inr {| code := 200; message := "success";
         data := Some {| raw_url := Some "http://cdn/b.mp4" |} |}.

Definition bad_file : thrown + FileResponse :=
  inr {| code := 404; message := "object not found"; data := None |}.

Definition anonymous (f n : option string) : Request :=
  {| token := "guess"; folder := f; fileName := n; authInfo := None |}.

Definition with_token (f n : option string) : Request :=
  {| token := "secret"; folder := f; fileName := n; authInfo := None |}.

End OpenListPlay.

(** ** The detail panel *)

Module DetailPanel.

Import Eff.
Local Open Scope eff_scope.

(** *** Strings

    A JavaScript string is a sequence of UTF-16 code units.  Literals are
    written as Rocq strings (UTF-8) and decoded by [js]. *)

Definition jstring := list N.

Local Open Scope N_scope.

Fixpoint utf8_decode (bs : list N) : jstring :=
  match bs with
  | [] => []
  | b :: r =>
    if b <? 0x80 then b :: utf8_decode r
    else if b <? 0xE0 then
      match r with
      | b1 :: r1 => ((b - 0xC0) * 64 + (b1 - 0x80)) :: utf8_decode r1
      | _ => [b]
      end
    else if b <? 0xF0 then
      match r with
      | b1 :: b2 :: r2 =>
        ((b - 0xE0) * 4096 + (b1 - 0x80) * 64 + (b2 - 0x80)) :: utf8_decode r2
      | _ => [b]
      end
    else
      match r with
      | b1 :: b2 :: b3 :: r3 =>
        let cp := (b - 0xF0) * 262144 + (b1 - 0x80) * 4096
                  + (b2 - 0x80) * 64 + (b3 - 0x80) in
        let v := cp - 0x10000 in
        (0xD800 + v / 1024) :: (0xDC00 + v mod 1024) :: utf8_decode r3
      | _ => [b]
      end
  end.

Definition js (s : string) : jstring :=
  utf8_decode (map N_of_ascii (list_ascii_of_string s)).

(** The code unit of a one-character literal. *)
Definition ch (s : string) : N := hd 0 (js s).

Fixpoint jeqb (a b : jstring) : bool :=
  match a, b with
  | [], [] => true
  | x :: a', y :: b' => (x =? y) && jeqb a' b'
  | _, _ => false
  end.

(** *** Values

    The payloads of the providers are untyped in the source ([any]); they
    are JSON values here, and reading them follows the language: a property
    of [null] or [undefined] cannot be read, a missing property is
    [undefined].  Numbers are rationals: JSON cannot carry [NaN] or an
    infinity, and the [NaN] of [parseInt] is [None] below.  Only the
    properties the component reads are looked up, none of which is inherited
    from a prototype. *)

#[local] Set Warnings "-register-all".

Inductive jsval :=
| JUndef
| JNull
| JBool (b : bool)
| JNum (q : Q)
| JStr (s : jstring)
| JArr (l : list jsval)
| JObj (kvs : list (jstring * jsval)).

Inductive thrown :=
| Thrown (msg : jstring)
| EngineTypeError.

Definition truthy (v : jsval) : bool :=
  match v with
  | JUndef | JNull => false
  | JBool b => b
  | JNum q => negb (Qeq_bool q 0)
  | JStr s => match s with [] => false | _ => true end
  | JArr _ | JObj _ => true
  end.

Definition nullish (v : jsval) : bool :=
  match v with JUndef | JNull => true | _ => false end.

(** [a || b] *)
Definition or (a b : jsval) : jsval := if truthy a then a else b.

Fixpoint lookup (kvs : list (jstring * jsval)) (name : jstring) : jsval :=
  match kvs with
  | [] => JUndef
  | (k, v) :: kvs' => if jeqb k name then v else lookup kvs' name
  end.

Definition num_of_nat (n : nat) : jsval := JNum (inject_Z (Z.of_nat n)).

(** [v.name] for a [v] that is neither [null] nor [undefined]. *)
Definition prop (v : jsval) (name : jstring) : jsval :=
  match v with
  | JObj kvs => lookup kvs name
  | JArr l => if jeqb name (js "length") then num_of_nat (length l) else JUndef
  | JStr s => if jeqb name (js "length") then num_of_nat (length s) else JUndef
  | _ => JUndef
  end.

(** [v.name] *)
Definition read (v : jsval) (name : jstring) : thrown + jsval :=
  if nullish v then inl EngineTypeError else inr (prop v name).

(** [v?.name] *)
Definition opt (v : jsval) (name : jstring) : jsval :=
  if nullish v then JUndef else prop v name.

(** [v[0]] for a [v] that is neither [null] nor [undefined]. *)
Definition index0 (v : jsval) : jsval :=
  match v with
  | JArr l => hd JUndef l
  | JStr s => match s with c :: _ => JStr [c] | [] => JUndef end
  | JObj kvs => lookup kvs (js "0")
  | _ => JUndef
  end.

(** [v?.[0]] *)
Definition opt_index0 (v : jsval) : jsval :=
  if nullish v then JUndef else index0 v.

(** [v.substring(0, 4)] *)
Definition substring04 (v : jsval) : thrown + jsval :=
  match v with
  | JStr s => inr (JStr (firstn 4 s))
  | _ => inl EngineTypeError
  end.

(** [v?.substring(0, 4)] *)
Definition opt_substring04 (v : jsval) : thrown + jsval :=
  if nullish v then inr JUndef else substring04 v.

Fixpoint names_of (l : list jsval) : thrown + list jsval :=
  match l with
  | [] => inr []
  | x :: l' =>
    match read x (js "name") with
    | inl e => inl e
    | inr n =>
      match names_of l' with
      | inl e => inl e
      | inr ns => inr (n :: ns)
      end
    end
  end.

(** [v?.map((x) => x.name)], then [keep] applied to the resulting array. *)
Definition opt_map_name (keep : list jsval -> list jsval) (v : jsval)
  : thrown + jsval :=
  if nullish v then inr JUndef
  else match v with
       | JArr l =>
         match names_of l with
         | inl e => inl e
         | inr ns => inr (JArr (keep ns))
         end
       | _ => inl EngineTypeError
       end.

(** [v === s] for a string literal [s]. *)
Definition is_str (v : jsval) (s : jstring) : bool :=
  match v with JStr t => jeqb t s | _ => false end.

Definition of_str_opt (o : option jstring) : jsval :=
  match o with Some s => JStr s | None => JUndef end.

Definition of_num_opt (o : option Q) : jsval :=
  match o with Some q => JNum q | None => JUndef end.

(** [l?.length] for an optional array of the props. *)
Definition opt_length (o : option (list jstring)) : jsval :=
  match o with Some l => num_of_nat (length l) | None => JUndef end.

(** *** Patterns

    The three season patterns need only single characters, character
    classes, greedy repetition of a class, sequencing, and one capturing
    group.  Matching backtracks as the language prescribes: a repetition
    takes as many characters as it can and gives them back one at a time
    when what follows does not match. *)

Inductive regex :=
| Atom (p : N -> bool)
| Rep (min : nat) (p : N -> bool)
| Seq (a b : regex)
| Group (r : regex).

Section Matcher.
Variable R : Type.

Fixpoint rep_greedy (p : N -> bool) (min : nat) (s : jstring)
         (k : jstring -> option R) : option R :=
  let stop := match min with O => k s | S _ => None end in
  match s with
  | c :: s' =>
    if p c then
      match rep_greedy p (Nat.pred min) s' k with
      | Some r => Some r
      | None => stop
      end
    else stop
  | [] => stop
  end.

Fixpoint exec (r : regex) (s : jstring) (cap : option jstring)
         (k : jstring -> option jstring -> option R) : option R :=
  match r with
  | Atom p =>
    match s with
    | c :: s' => if p c then k s' cap else None
    | [] => None
    end
  | Rep min p => rep_greedy p min s (fun s' => k s' cap)
  | Seq a b => exec a s cap (fun s1 c1 => exec b s1 c1 k)
  | Group g =>
    exec g s cap
         (fun s1 _ => k s1 (Some (firstn (length s - length s1) s)))
  end.
End Matcher.

(** A successful match: what precedes it, the text of group 1, and what
    follows it. *)
Record Match := {
  before : jstring;
  group1 : jstring;
  after : jstring
}.

Definition match_at (r : regex) (pre_rev s : jstring) : option Match :=
  exec r s None
       (fun rest cap =>
          Some {| before := rev pre_rev;
                  group1 := match cap with Some c => c | None => [] end;
                  after := rest |}).

(** The leftmost match; [pre_rev] holds, reversed, what has been skipped. *)
Fixpoint search (r : regex) (pre_rev s : jstring) : option Match :=
  match match_at r pre_rev s with
  | Some m => Some m
  | None =>
    match s with
    | [] => None
    | c :: s' => search r (c :: pre_rev) s'
    end
  end.

(** [s.match(r)] for a pattern without the [g] flag. *)
Definition str_match (s : jstring) (r : regex) : option Match :=
  search r [] s.

(** [s.replace(r, '')]: the first match is cut out. *)
Definition str_replace_empty (s : jstring) (r : regex) : jstring :=
  match str_match s r with
  | Some m => before m ++ after m
  | None => s
  end.

Definition is_char (c : N) : N -> bool := fun x => x =? c.

(** An ASCII letter under the [i] flag: itself in either case. *)
Definition letter_i (c : N) : N -> bool :=
  fun x =>
    let up := if (0x61 <=? c) && (c <=? 0x7A) then c - 32 else c in
    let lo := if (0x41 <=? c) && (c <=? 0x5A) then c + 32 else c in
    (x =? up) || (x =? lo).

(** [\d] *)
Definition is_digit (x : N) : bool := (0x30 <=? x) && (x <=? 0x39).

(** White space and line terminators: [\s], and what [trim] and
    [parseInt] skip. *)
Definition is_space (x : N) : bool :=
  ((0x09 <=? x) && (x <=? 0x0D)) || (x =? 0x20) || (x =? 0xA0)
  || (x =? 0x1680) || ((0x2000 <=? x) && (x <=? 0x200A))
  || (x =? 0x2028) || (x =? 0x2029) || (x =? 0x202F) || (x =? 0x205F)
  || (x =? 0x3000) || (x =? 0xFEFF).

Fixpoint drop_space (s : jstring) : jstring :=
  match s with
  | c :: s' => if is_space c then drop_space s' else s
  | [] => []
  end.

(** [s.trim()] *)
Definition trim (s : jstring) : jstring :=
  rev (drop_space (rev (drop_space s))).

(** The numerals of the table [chineseNumbers], in the order of their
    values 1 to 10. *)
Definition numerals : list N :=
  Eval vm_compute in js "一二三四五六七八九十".

Definition c_di : N := Eval vm_compute in ch "第".
Definition c_ji : N := Eval vm_compute in ch "季".
Definition c_bu : N := Eval vm_compute in ch "部".

Definition is_numeral (x : N) : bool := existsb (N.eqb x) numerals.

(** [[一二三四五六七八九十\d]] *)
Definition cjk_class (x : N) : bool := is_numeral x || is_digit x.

(** [[季部]] *)
Definition is_mark (x : N) : bool := (x =? c_ji) || (x =? c_bu).

(** [/第([一二三四五六七八九十\d]+)[季部]/] *)
Definition pattern_cjk : regex :=
  Seq (Atom (is_char c_di))
      (Seq (Group (Rep 1 cjk_class)) (Atom is_mark)).

(** The letters [cs] under the [i] flag, followed by [r]. *)
Fixpoint lit_i (cs : jstring) (r : regex) : regex :=
  match cs with
  | [] => r
  | c :: cs' => Seq (Atom (letter_i c)) (lit_i cs' r)
  end.

(** [/Season\s*(\d+)/i] *)
Definition pattern_season : regex :=
  lit_i (js "Season") (Seq (Rep 0 is_space) (Group (Rep 1 is_digit))).

(** [/S(\d+)/i] *)
Definition pattern_s : regex :=
  lit_i (js "S") (Group (Rep 1 is_digit)).

Definition seasonPatterns : list regex :=
  [pattern_cjk; pattern_season; pattern_s].

(** *** [parseInt]

    [parseInt(s)] without a radix: leading white space is skipped, a sign is
    read, [0x] selects base 16, and the longest run of digits is the value;
    no digit at all gives [NaN], which is [None] here.  The value is exact,
    where the language rounds integers beyond 2^53. *)

Definition digit_val (radix c : N) : option N :=
  let d :=
    if is_digit c then Some (c - 0x30)
    else if (0x61 <=? c) && (c <=? 0x7A) then Some (c - 0x61 + 10)
    else if (0x41 <=? c) && (c <=? 0x5A) then Some (c - 0x41 + 10)
    else None in
  match d with
  | Some v => if v <? radix then Some v else None
  | None => None
  end.

Fixpoint parse_digits (radix : N) (s : jstring) (acc : option N)
  : option N :=
  match s with
  | [] => acc
  | c :: s' =>
    match digit_val radix c with
    | Some d =>
      parse_digits radix s'
                   (Some (match acc with Some a => a * radix + d | None => d end))
    | None => acc
    end
  end.

Definition parseInt (s : jstring) : option Z :=
  let s1 := drop_space s in
  let (neg, s2) :=
    match s1 with
    | c :: r => if c =? 0x2D then (true, r)
                else if c =? 0x2B then (false, r) else (false, s1)
    | [] => (false, s1)
    end in
  let (radix, s3) :=
    match s2 with
    | z :: x :: r =>
      if (z =? 0x30) && ((x =? 0x78) || (x =? 0x58)) then (16, r)
      else (10, s2)
    | _ => (10, s2)
    end in
  match parse_digits radix s3 None with
  | Some n => Some (if neg then (- Z.of_N n)%Z else Z.of_N n)
  | None => None
  end.

(** The table of the source.  It is read only at the text of group 1, made
    of numerals and digits, which names no inherited property. *)
Definition chineseNumbers : list (jstring * jsval) :=
  [ (js "一", JNum 1); (js "二", JNum 2); (js "三", JNum 3);
    (js "四", JNum 4); (js "五", JNum 5); (js "六", JNum 6);
    (js "七", JNum 7); (js "八", JNum 8); (js "九", JNum 9);
    (js "十", JNum 10) ].

(** [chineseNumbers[seasonStr] || parseInt(seasonStr) || undefined] *)
Definition season_of_capture (seasonStr : jstring) : jsval :=
  or (lookup chineseNumbers seasonStr)
     (match parseInt seasonStr with
      | Some z => or (JNum (inject_Z z)) JUndef
      | None => JUndef
      end).


(** The loop over the patterns: the first pattern that matches is cut out
    of the title, and gives the season number when none was supplied. *)
Fixpoint strip_season_loop (patterns : list regex) (title : jstring)
         (extractedSeasonNumber : jsval) : jstring * jsval :=
  match patterns with
  | [] => (title, extractedSeasonNumber)
  | pattern :: rest =>
    match str_match title pattern with
    | Some m =>
      (trim (str_replace_empty title pattern),
       if negb (truthy extractedSeasonNumber)
       then season_of_capture (group1 m)
       else extractedSeasonNumber)
    | None => strip_season_loop rest title extractedSeasonNumber
    end
  end.

(** The match of the first pattern, in the order of the list, that matches
    the title. *)
Fixpoint first_match (patterns : list regex) (title : jstring)
  : option Match :=
  match patterns with
  | [] => None
  | pattern :: rest =>
    match str_match title pattern with
    | Some m => Some m
    | None => first_match rest title
    end
  end.

(** The pair [(searchTitle, extractedSeasonNumber)] after the loop. *)
Definition strip_season (title : jstring) (seasonNumber : jsval)
  : jstring * jsval :=
  strip_season_loop seasonPatterns title seasonNumber.

(** *** Props, records and requests *)

Inductive MediaType := movie | tv.

Definition media_str (t : MediaType) : jstring :=
  match t with movie => js "movie" | tv => js "tv" end.

Record CmsData := {
  desc : option jstring;
  episodes : option (list jstring);
  episodes_titles : option (list jstring)
}.

Record Props := {
  title : jstring;
  poster : option jstring;
  doubanId : option Q;
  bangumiId : option Q;
  isBangumi : option bool;
  tmdbId : option Q;
  type : option MediaType;
  seasonNumber : option Q;
  cmsData : option CmsData;
  sourceId : option jstring;
  source : option jstring
}.

(** [type = 'movie'] in the parameter list. *)
Definition type_of (P : Props) : MediaType :=
  match type P with Some t => t | None => movie end.

Definition flag (o : option bool) : bool :=
  match o with Some b => b | None => false end.

(** The record handed to [setDetailData].  At run time each field holds
    whatever the provider sent; a field left out of the object literal is
    [JUndef]. *)
Module DetailData.
Record t := {
  title : jsval;
  originalTitle : jsval;
  year : jsval;
  poster : jsval;
  rating : jsval;
  intro : jsval;
  genres : jsval;
  directors : jsval;
  actors : jsval;
  countries : jsval;
  languages : jsval;
  duration : jsval;
  episodesCount : jsval;
  releaseDate : jsval;
  status : jsval;
  tagline : jsval;
  seasons : jsval;
  overview : jsval
}.

(** The record with a title and nothing else. *)
Definition only_title (v : jsval) : t :=
  {| title := v; originalTitle := JUndef; year := JUndef;
     poster := JUndef; rating := JUndef; intro := JUndef;
     genres := JUndef; directors := JUndef; actors := JUndef;
     countries := JUndef; languages := JUndef; duration := JUndef;
     episodesCount := JUndef; releaseDate := JUndef; status := JUndef;
     tagline := JUndef; seasons := JUndef; overview := JUndef |}.
End DetailData.

(** The requests, by endpoint, with the values interpolated into the URL:
    - [/api/source-detail?id=..&source=..&title=..]
    - [https://api.bgm.tv/v0/subjects/{id}]
    - [/api/douban/detail?id=..]
    - [/api/tmdb/search?query=..]
    - [/api/tmdb/detail?id=..&type=..]
    - [/api/tmdb/seasons?id=..&season=..] *)
Inductive Request :=
| SourceDetail (id source title : jstring)
| BangumiSubject (id : jsval)
| DoubanDetail (id : jsval)
| TmdbSearch (query : jstring)
| TmdbDetail (id type : jsval)
| TmdbSeason (id season : jsval).

(** A response: its [ok] flag and what [response.json()] gives, which is
    thrown when the body is not JSON. *)
Record Response := {
  ok : bool;
  json : thrown + jsval
}.

(** The network: each request either fails (the promise of [fetch] is
    rejected) or is answered. *)
Definition World := Request -> thrown + Response.

Inductive outcome :=
| Resolved (d : DetailData.t)
| Failed (e : thrown).

Record PanelState := {
  detailData : option DetailData.t;
  loading : bool;
  error : option thrown
}.

(** *** The cascade *)

Section Cascade.

(** Two conversions of the language are left to the engine: the text a
    value that is not a string takes inside a template literal, and the
    number a string or an array counts as in a comparison. *)
Variable ToString : jsval -> jstring.
Variable ToNumber : jsval -> option Q.

(** [`${v}`] *)
Definition template (v : jsval) : jstring :=
  match v with JStr s => s | _ => ToString v end.

(** [v > 0] *)
Definition gt0 (v : jsval) : bool :=
  match v with
  | JNum q => negb (Qle_bool q 0)
  | JUndef | JNull => false
  | JBool b => b
  | JStr _ | JArr _ | JObj _ =>
    match ToNumber v with
    | Some q => negb (Qle_bool q 0)
    | None => false
    end
  end.

Variable P : Props.
Variable W : World.

(** Step 1: the inline synopsis. *)
Definition cms_record (c : CmsData) (d : jstring) : DetailData.t :=
  {| DetailData.title := JStr (title P);
     DetailData.originalTitle := JUndef;
     DetailData.year := JUndef;
     DetailData.poster := of_str_opt (poster P);
     DetailData.rating := JUndef;
     DetailData.intro := JStr d;
     DetailData.genres := JUndef;
     DetailData.directors := JUndef;
     DetailData.actors := JUndef;
     DetailData.countries := JUndef;
     DetailData.languages := JUndef;
     DetailData.duration := JUndef;
     DetailData.episodesCount := opt_length (episodes c);
     DetailData.releaseDate := JUndef;
     DetailData.status := JUndef;
     DetailData.tagline := JUndef;
     DetailData.seasons := JUndef;
     DetailData.overview := JUndef |}.

(** Step 2: the record built from the answer of the source-detail
    endpoint. *)
Definition source_detail_record (c : CmsData) (data : jsval)
  : thrown + DetailData.t :=
  if nullish data then inl EngineTypeError
  else inr
    {| DetailData.title := or (prop data (js "title")) (JStr (title P));
       DetailData.originalTitle := JUndef;
       DetailData.year := prop data (js "year");
       DetailData.poster :=
         or (prop data (js "poster")) (of_str_opt (poster P));
       DetailData.rating := JUndef;
       DetailData.intro := or (prop data (js "desc")) (JStr []);
       DetailData.genres := JUndef;
       DetailData.directors := JUndef;
       DetailData.actors := JUndef;
       DetailData.countries := JUndef;
       DetailData.languages := JUndef;
       DetailData.duration := JUndef;
       DetailData.episodesCount :=
         or (opt (prop data (js "episodes")) (js "length"))
            (opt_length (episodes c));
       DetailData.releaseDate := JUndef;
       DetailData.status := JUndef;
       DetailData.tagline := JUndef;
       DetailData.seasons := JUndef;
       DetailData.overview := JUndef |}.

(** Step 3: the record built from a Bangumi subject. *)
Definition bangumi_record (data : jsval) : thrown + DetailData.t :=
  if nullish data then inl EngineTypeError
  else
    let date := prop data (js "date") in
    let rating := prop data (js "rating") in
    year <~ (if truthy date then substring04 date else inr JUndef) ;;
    genres <~ opt_map_name (firstn 5) (prop data (js "tags")) ;;
    inr
      {| DetailData.title :=
           or (prop data (js "name_cn")) (prop data (js "name"));
         DetailData.originalTitle := prop data (js "name");
         DetailData.year := year;
         DetailData.poster :=
           or (opt (prop data (js "images")) (js "large"))
              (of_str_opt (poster P));
         DetailData.rating :=
           if truthy rating
           then JObj [ (js "value", prop rating (js "score"));
                       (js "count", prop rating (js "total")) ]
           else JUndef;
         DetailData.intro := prop data (js "summary");
         DetailData.genres := genres;
         DetailData.directors := JUndef;
         DetailData.actors := JUndef;
         DetailData.countries := JUndef;
         DetailData.languages := JUndef;
         DetailData.duration := JUndef;
         DetailData.episodesCount := prop data (js "eps");
         DetailData.releaseDate := date;
         DetailData.status := JUndef;
         DetailData.tagline := JUndef;
         DetailData.seasons := JUndef;
         DetailData.overview := JUndef |}.

(** Step 4: the record built from the answer of the Douban endpoint. *)
Definition douban_record (data : jsval) : thrown + DetailData.t :=
  if nullish data then inl EngineTypeError
  else
    let pic := prop data (js "pic") in
    let rating := prop data (js "rating") in
    inr
      {| DetailData.title := prop data (js "title");
         DetailData.originalTitle := prop data (js "original_title");
         DetailData.year := prop data (js "year");
         DetailData.poster :=
           or (or (opt pic (js "large")) (opt pic (js "normal")))
              (of_str_opt (poster P));
         DetailData.rating :=
           if truthy rating
           then JObj [ (js "value", prop rating (js "value"));
                       (js "count", prop rating (js "count")) ]
           else JUndef;
         DetailData.intro := prop data (js "intro");
         DetailData.genres := prop data (js "genres");
         DetailData.directors := prop data (js "directors");
         DetailData.actors := prop data (js "actors");
         DetailData.countries := prop data (js "countries");
         DetailData.languages := prop data (js "languages");
         DetailData.duration := opt_index0 (prop data (js "durations"));
         DetailData.episodesCount := prop data (js "episodes_count");
         DetailData.releaseDate := JUndef;
         DetailData.status := JUndef;
         DetailData.tagline := JUndef;
         DetailData.seasons := JUndef;
         DetailData.overview := JUndef |}.

(** Step 5: the record built from the TMDB detail and, when there is one,
    the season detail ([seasonData] is [null] otherwise). *)
Definition tmdb_record (mediaType detailResult seasonData : jsval)
  : thrown + DetailData.t :=
  if nullish detailResult then inl EngineTypeError
  else
    let is_movie := is_str mediaType (js "movie") in
    let date :=
      if is_movie then prop detailResult (js "release_date")
      else prop detailResult (js "first_air_date") in
    let poster_path := prop detailResult (js "poster_path") in
    let vote_average := prop detailResult (js "vote_average") in
    let runtime := prop detailResult (js "runtime") in
    year <~ opt_substring04 date ;;
    genres <~ opt_map_name (fun l => l) (prop detailResult (js "genres")) ;;
    countries <~
      opt_map_name (fun l => l)
                   (prop detailResult (js "production_countries")) ;;
    languages <~
      opt_map_name (fun l => l)
                   (prop detailResult (js "spoken_languages")) ;;
    inr
      {| DetailData.title :=
           if is_movie then prop detailResult (js "title")
           else prop detailResult (js "name");
         DetailData.originalTitle :=
           if is_movie then prop detailResult (js "original_title")
           else prop detailResult (js "original_name");
         DetailData.year := year;
         DetailData.poster :=
           if truthy poster_path
           then JStr (js "https://image.tmdb.org/t/p/w500"
                      ++ template poster_path)
           else of_str_opt (poster P);
         DetailData.rating :=
           if truthy vote_average
           then JObj [ (js "value", vote_average);
                       (js "count", prop detailResult (js "vote_count")) ]
           else JUndef;
         DetailData.intro :=
           or (opt seasonData (js "overview"))
              (prop detailResult (js "overview"));
         DetailData.genres := genres;
         DetailData.directors := JUndef;
         DetailData.actors := JUndef;
         DetailData.countries := countries;
         DetailData.languages := languages;
         DetailData.duration :=
           if truthy runtime then JStr (template runtime ++ js "分钟")
           else JUndef;
         DetailData.episodesCount :=
           or (opt (opt seasonData (js "episodes")) (js "length"))
              (prop detailResult (js "number_of_episodes"));
         DetailData.releaseDate := date;
         DetailData.status := prop detailResult (js "status");
         DetailData.tagline := prop detailResult (js "tagline");
         DetailData.seasons := prop detailResult (js "number_of_seasons");
         DetailData.overview := prop detailResult (js "overview") |}.

(** [await fetch(url)] *)
Definition fetch (q : Request) : M Request thrown Response :=
  call q (W q).

Definition str_truthy (o : option jstring) : bool :=
  truthy (of_str_opt o).

(** The request of step 2, made only when [sourceId] and [source] are
    both there. *)
Definition source_detail_request : Request :=
  SourceDetail (match sourceId P with Some i => i | None => [] end)
               (match source P with Some i => i | None => [] end)
               (title P).

(** Steps 1 and 2.  [Some d] is a record set with [setDetailData] followed
    by [return]; [None] is control reaching the statement after the
    [if (cmsData)] block.  Whatever is thrown inside the inner [try] is
    caught there. *)
Definition cms_steps : M Request thrown (option DetailData.t) :=
  match cmsData P with
  | None => ret None
  | Some c =>
    if str_truthy (desc c) then
      ret (Some (cms_record c (match desc c with Some d => d | None => [] end)))
    else if str_truthy (sourceId P) && str_truthy (source P) then
      try_catch
        (response <- fetch source_detail_request ;;
         if ok response then
           data <- lift (json response) ;;
           d <- lift (source_detail_record c data) ;;
           ret (Some d)
         else ret None)
        (fun _ => ret None)
    else ret None
  end.

(** Step 3 *)
Definition bangumi_steps : M Request thrown DetailData.t :=
  let actualBangumiId :=
    or (of_num_opt (bangumiId P)) (of_num_opt (doubanId P)) in
  response <- fetch (BangumiSubject actualBangumiId) ;;
  if negb (ok response) then throw (Thrown (js "获取Bangumi详情失败"))
  else
    data <- lift (json response) ;;
    lift (bangumi_record data).

(** Step 4 *)
Definition douban_steps : M Request thrown DetailData.t :=
  response <- fetch (DoubanDetail (of_num_opt (doubanId P))) ;;
  if negb (ok response) then throw (Thrown (js "获取豆瓣详情失败"))
  else
    data <- lift (json response) ;;
    lift (douban_record data).

(** The season detail, sought when a season number is known and the media
    type is ['tv']; a failure leaves [seasonData] at [null]. *)
Definition season_steps (detailId mediaType extractedSeasonNumber : jsval)
  : M Request thrown jsval :=
  if truthy extractedSeasonNumber && is_str mediaType (js "tv") then
    try_catch
      (seasonResponse <- fetch (TmdbSeason detailId extractedSeasonNumber) ;;
       if ok seasonResponse then lift (json seasonResponse)
       else ret JNull)
      (fun _ => ret JNull)
  else ret JNull.

(** Step 5 *)
Definition tmdb_steps : M Request thrown DetailData.t :=
  let stripped := strip_season (title P) (of_num_opt (seasonNumber P)) in
  let searchTitle := fst stripped in
  let extractedSeasonNumber := snd stripped in
  searchResponse <- fetch (TmdbSearch searchTitle) ;;
  if negb (ok searchResponse) then throw (Thrown (js "搜索失败"))
  else
    searchData <- lift (json searchResponse) ;;
    results <- lift (read searchData (js "results")) ;;
    if truthy results && gt0 (prop results (js "length")) then
      let result := index0 results in
      detailId <- lift (read result (js "id")) ;;
      let mediaType :=
        or (prop result (js "media_type")) (JStr (media_str (type_of P))) in
      detailResponse <- fetch (TmdbDetail detailId mediaType) ;;
      if negb (ok detailResponse) then
        throw (Thrown (js "获取TMDB详情失败"))
      else
        detailResult <- lift (json detailResponse) ;;
        seasonData <-
          season_steps detailId mediaType extractedSeasonNumber ;;
        lift (tmdb_record mediaType detailResult seasonData)
    else throw (Thrown (js "未找到相关内容")).

(** [bangumiId || (isBangumi && doubanId)] *)
Definition bangumi_applies : bool :=
  truthy (of_num_opt (bangumiId P))
  || (flag (isBangumi P) && truthy (of_num_opt (doubanId P))).

(** [doubanId && !isBangumi] *)
Definition douban_applies : bool :=
  truthy (of_num_opt (doubanId P)) && negb (flag (isBangumi P)).

(** Steps 3 to 5: what follows the [if (cmsData)] block. *)
Definition id_steps : M Request thrown DetailData.t :=
  if bangumi_applies then bangumi_steps
  else if douban_applies then douban_steps
  else if truthy (JStr (title P)) then tmdb_steps
  else throw (Thrown (js "缺少必要的查询参数")).

(** The body of the outer [try]. *)
Definition fetchDetail_body : M Request thrown DetailData.t :=
  r <- cms_steps ;;
  match r with
  | Some d => ret d
  | None => id_steps
  end.

(** One run of [fetchDetail]: the record handed to [setDetailData] or the
    error handed to [setError], and the requests made. *)
Definition fetchDetail : outcome * list Request :=
  match fetchDetail_body with
  | (inr d, t) => (Resolved d, t)
  | (inl e, t) => (Failed e, t)
  end.

(** The same run on the state of the panel: [loading] ends [false] on
    every path, and a failure leaves the previous record in place. *)
Definition fetchDetail_state (st : PanelState) : PanelState * list Request :=
  match fetchDetail with
  | (Resolved d, t) =>
    ({| detailData := Some d; loading := false; error := None |}, t)
  | (Failed e, t) =>
    ({| detailData := detailData st; loading := false; error := Some e |}, t)
  end.

End Cascade.

Definition outcome_of (r : thrown + DetailData.t) : outcome :=
  match r with
  | inr d => Resolved d
  | inl e => Failed e
  end.

(** The title of a resolved record, by branch. *)
Definition title_source (TS : jsval -> jstring) (TN : jsval -> option Q)
           (P : Props) (W : World) (r : DetailData.t) : Prop :=
  (snd (fetchDetail TS TN P W) = []
   /\ DetailData.title r = JStr (title P))
  \/ (snd (fetchDetail TS TN P W) = [source_detail_request P]
      /\ exists resp data,
          W (source_detail_request P) = inr resp /\ json resp = inr data
          /\ DetailData.title r
             = or (prop data (js "title")) (JStr (title P)))
  \/ (exists id resp data,
         In (BangumiSubject id) (snd (fetchDetail TS TN P W))
         /\ W (BangumiSubject id) = inr resp /\ json resp = inr data
         /\ DetailData.title r
            = or (prop data (js "name_cn")) (prop data (js "name")))
  \/ (exists id resp data,
         In (DoubanDetail id) (snd (fetchDetail TS TN P W))
         /\ W (DoubanDetail id) = inr resp /\ json resp = inr data
         /\ DetailData.title r = prop data (js "title"))
  \/ (exists id mt resp detail,
         In (TmdbDetail id mt) (snd (fetchDetail TS TN P W))
         /\ W (TmdbDetail id mt) = inr resp /\ json resp = inr detail
         /\ DetailData.title r
            = if is_str mt (js "movie") then prop detail (js "title")
              else prop detail (js "name")).


Definition is_tmdb (q : Request) : bool :=
  match q with
  | TmdbSearch _ | TmdbDetail _ _ | TmdbSeason _ _ => true
  | _ => false
  end.




(** *** Sample props and networks *)

Definition props_of (t : jstring) (douban bangumi : option Q)
           (bgm : option bool) (cms : option CmsData) : Props :=
  {| title := t; poster := None; doubanId := douban; bangumiId := bangumi;
     isBangumi := bgm; tmdbId := None; type := None; seasonNumber := None;
     cmsData := cms; sourceId := None; source := None |}.

Definition sample_cms : CmsData :=
  {| desc := Some (js "X"); episodes := Some [js "ep1"; js "ep2"];
     episodes_titles := None |}.

(** Inline data without a synopsis, and a source to ask for the detail. *)
Definition props_with_source (t : jstring) (bangumi : option Q) : Props :=
  {| title := t; poster := None; doubanId := None; bangumiId := bangumi;
     isBangumi := None; tmdbId := None; type := None; seasonNumber := None;
     cmsData := Some {| desc := None; episodes := None;
                        episodes_titles := None |};
     sourceId := Some (js "12"); source := Some (js "cms") |}.

(** Every request is rejected. *)
Definition offline : World := fun _ => inl (Thrown (js "Failed to fetch")).

Definition answer (v : jsval) : thrown + Response :=
  inr {| ok := true; json := inr v |}.

Definition refuse : thrown + Response :=
  inr {| ok := false; json := inr JNull |}.

(** The source detail is refused; a Bangumi subject is served. *)
Definition bangumi_only : World :=
  fun q =>
    match q with
    | BangumiSubject _ => answer (JObj [(js "name", JStr (js "N"))])
    | _ => refuse
    end.

Definition same_ToString : jsval -> jstring := fun _ => [].
Definition same_ToNumber : jsval -> option Q := fun _ => None.

Definition idle : PanelState :=
  {| detailData := None; loading := false; error := None |}.

(** A network for a title search: one TV result, a show detail, and the
    given answer to the season request. *)
Definition show_detail : jsval :=
  JObj [ (js "name", JStr (js "剑王朝"));
         (js "overview", JStr (js "show overview"));
         (js "first_air_date", JStr (js "2019-12-06")) ].

Definition tmdb_world (season : thrown + Response) : World :=
  fun q =>
    match q with
    | TmdbSearch _ =>
      answer (JObj [ (js "results",
                      JArr [ JObj [ (js "id", JNum 42);
                                    (js "media_type", JStr (js "tv")) ] ]) ])
    | TmdbDetail _ _ => answer show_detail
    | TmdbSeason _ _ => season
    | _ => refuse
    end.

End DetailPanel.

(** ** More about the playback resolver: paths and samples *)

Module OpenListPaths.

Import OpenListPlay.
Local Open Scope string_scope.

(** The string holds a slash. *)
Fixpoint contains_slash (s : string) : bool :=
  match s with
  | EmptyString => false
  | String c s' => Ascii.eqb c "/" || contains_slash s'
  end.

(** The backend passes the test on the configuration. *)
Definition ready (oc : OpenListConfig) : Prop :=
  Enabled oc = true /\ URL oc <> "" /\ Username oc <> ""
  /\ Password oc <> "".

(** A session that carries a user name, with a path token that is not the
    configured one. *)
Definition with_session (f n : option string) : Request :=
  {| token := "guess"; folder := f; fileName := n;
     authInfo := Some {| username := Some "alice" |} |}.

(** The backend is there but switched off. *)
Definition disabled_env : Env :=
  {| TVBOX_SUBSCRIBE_TOKEN := Some "secret";
     getConfig :=
       inr {| OpenListConfig_ :=
                Some {| Enabled := false; URL := "http://list";
                        Username := "u"; Password := "p";
                        RootPath := None |} |};
     getFile := fun _ _ _ _ => good_file |}.


End OpenListPaths.

(** ** The TMDB branch, by cases *)

Module DetailPanelCases.

Import Eff DetailPanel.

Section Cases.

Variable TS : jsval -> jstring.
Variable TN : jsval -> option Q.
Variable P : Props.
Variable W : World.

(** The search request: the title without its season marker. *)
Definition search_request : Request :=
  TmdbSearch (fst (strip_season (title P) (of_num_opt (seasonNumber P)))).

(** [extractedSeasonNumber] after the loop. *)
Definition season_number : jsval :=
  snd (strip_season (title P) (of_num_opt (seasonNumber P))).

(** [searchData.results && searchData.results.length > 0] *)
Definition has_results (searchData : jsval) : bool :=
  truthy (prop searchData (js "results"))
  && gt0 TN (prop (prop searchData (js "results")) (js "length")).

(** [searchData.results[0]] *)
Definition first_result (searchData : jsval) : jsval :=
  index0 (prop searchData (js "results")).

(** [result.media_type || type] *)
Definition media_type_of (result : jsval) : jsval :=
  or (prop result (js "media_type")) (JStr (media_str (type_of P))).

Definition detail_request (searchData : jsval) : Request :=
  TmdbDetail (prop (first_result searchData) (js "id"))
             (media_type_of (first_result searchData)).

Definition season_request (searchData : jsval) : Request :=
  TmdbSeason (prop (first_result searchData) (js "id")) season_number.

(** [extractedSeasonNumber && mediaType === 'tv'] *)
Definition wants_season (searchData : jsval) : bool :=
  truthy season_number
  && is_str (media_type_of (first_result searchData)) (js "tv").

(** What [seasonData] holds after the season request was answered. *)
Definition season_data (a : thrown + Response) : jsval :=
  match a with
  | inl _ => JNull
  | inr resp =>
    if ok resp then match json resp with inr v => v | inl _ => JNull end
    else JNull
  end.

(** The search was answered with a body that can be read. *)
Definition search_answer (searchData : jsval) : Prop :=
  exists resp,
    W search_request = inr resp /\ ok resp = true
    /\ json resp = inr searchData /\ nullish searchData = false.

(** The ways the search can fail, with what is thrown. *)
Definition search_failure (e : thrown) : Prop :=
  W search_request = inl e
  \/ exists resp,
      W search_request = inr resp
      /\ ((ok resp = false /\ e = Thrown (js "搜索失败"))
          \/ (ok resp = true /\ json resp = inl e)
          \/ (ok resp = true /\ e = EngineTypeError
              /\ exists v, json resp = inr v /\ nullish v = true)).

(** The detail of the first result was fetched and read. *)
Definition detail_answer (searchData detail : jsval) : Prop :=
  search_answer searchData
  /\ has_results searchData = true
  /\ nullish (first_result searchData) = false
  /\ exists resp,
      W (detail_request searchData) = inr resp /\ ok resp = true
      /\ json resp = inr detail.

Definition detail_failure (searchData : jsval) (e : thrown) : Prop :=
  W (detail_request searchData) = inl e
  \/ exists resp,
      W (detail_request searchData) = inr resp
      /\ ((ok resp = false /\ e = Thrown (js "获取TMDB详情失败"))
          \/ (ok resp = true /\ json resp = inl e)).

(** Every way the TMDB branch can go, with what it yields and the requests
    it makes. *)
Inductive tmdb_case : (thrown + DetailData.t) * list Request -> Prop :=
| tmdb_search_failed e :
    search_failure e ->
    tmdb_case (inl e, [search_request])
| tmdb_not_found sd :
    search_answer sd -> has_results sd = false ->
    tmdb_case (inl (Thrown (js "未找到相关内容")), [search_request])
| tmdb_result_unreadable sd :
    search_answer sd -> has_results sd = true ->
    nullish (first_result sd) = true ->
    tmdb_case (inl EngineTypeError, [search_request])
| tmdb_detail_failed sd e :
    search_answer sd -> has_results sd = true ->
    nullish (first_result sd) = false ->
    detail_failure sd e ->
    tmdb_case (inl e, [search_request; detail_request sd])
| tmdb_built sd detail :
    detail_answer sd detail -> wants_season sd = false ->
    tmdb_case (tmdb_record TS P (media_type_of (first_result sd)) detail
                           JNull,
               [search_request; detail_request sd])
| tmdb_built_with_season sd detail :
    detail_answer sd detail -> wants_season sd = true ->
    tmdb_case (tmdb_record TS P (media_type_of (first_result sd)) detail
                           (season_data (W (season_request sd))),
               [search_request; detail_request sd; season_request sd]).

End Cases.

(** The requests of steps 3 to 5 go to one provider. *)
Definition one_provider (t : list Request) : Prop :=
  t = []
  \/ (exists id, t = [BangumiSubject id])
  \/ (exists id, t = [DoubanDetail id])
  \/ (exists q, t = [TmdbSearch q])
  \/ (exists q id mt, t = [TmdbSearch q; TmdbDetail id mt])
  \/ (exists q id mt s,
         t = [TmdbSearch q; TmdbDetail id mt; TmdbSeason id s]).

(** The requests whose failure ends the run. *)
Definition is_terminal (q : Request) : bool :=
  match q with
  | BangumiSubject _ | DoubanDetail _ | TmdbSearch _ | TmdbDetail _ _ => true
  | SourceDetail _ _ _ | TmdbSeason _ _ => false
  end.

(** A network for a title search whose season request is answered with an
    overview of its own. *)
Definition season_detail : jsval :=
  JObj [ (js "overview", JStr (js "season overview"));
         (js "episodes", JArr [JObj []; JObj []; JObj []]) ].

(** A Bangumi subject with a rating, six tags and a date. *)
Definition tag (n : string) : jsval := JObj [(js "name", JStr (js n))].

Definition bangumi_subject : jsval :=
  JObj [ (js "name", JStr (js "Ken"));
         (js "name_cn", JStr (js "剑"));
         (js "date", JStr (js "2019-12-06"));
         (js "rating", JObj [ (js "score", JNum (81 # 10));
                              (js "total", JNum 120) ]);
         (js "tags", JArr [tag "a"; tag "b"; tag "c"; tag "d"; tag "e";
                           tag "f"]) ].

Definition bangumi_world : World := fun _ => answer bangumi_subject.

(** The record resolved for the Bangumi id 5 on this network. *)
Definition bangumi_sample_record : DetailData.t :=
  Eval vm_compute in
    match fst (fetchDetail same_ToString same_ToNumber
                           (props_of (js "T") None (Some 5%Q) None None)
                           bangumi_world) with
    | Resolved r => r
    | Failed _ => DetailData.only_title JUndef
    end.

(** The source detail is served, without a title of its own. *)
Definition source_world : World :=
  fun q =>
    match q with
    | SourceDetail _ _ _ =>
      answer (JObj [ (js "desc", JStr (js "D"));
                     (js "episodes", JArr [JStr (js "1"); JStr (js "2")]) ])
    | _ => refuse
    end.

(** The search finds nothing. *)
Definition empty_search : World :=
  fun q =>
    match q with
    | TmdbSearch _ => answer (JObj [(js "results", JArr [])])
    | _ => refuse
    end.

End DetailPanelCases.

(** ** What the panel shows of a run *)

Module PanelView.

Import DetailPanel.

Section View.

(** The message of the [TypeError] the engine raises; its text depends on
    the engine. *)
Variable type_error_message : jstring.

(** [err.message], as handed to [setError]. *)
Definition error_text (e : thrown) : jstring :=
  match e with
  | Thrown m => m
  | EngineTypeError => type_error_message
  end.

(** The state once [fetchDetail] has started: [setLoading(true)] and
    [setError(null)]; the record of an earlier run stays. *)
Definition begin (st : PanelState) : PanelState :=
  {| detailData := detailData st; loading := true; error := None |}.

(** [error], the string of the state, is truthy. *)
Definition error_shown (st : PanelState) : option jstring :=
  match error st with
  | Some e => if truthy (JStr (error_text e)) then Some (error_text e)
              else None
  | None => None
  end.

(** [{loading && ...}] *)
Definition spinner_shown (st : PanelState) : bool := loading st.

(** [{!loading && !error && detailData && ...}] *)
Definition details_shown (st : PanelState) : option DetailData.t :=
  if negb (loading st)
     && negb (match error_shown st with Some _ => true | None => false end)
  then detailData st
  else None.

End View.

(** A state that holds the record of an earlier run. *)
Definition earlier_record : PanelState :=
  {| detailData := Some (DetailData.only_title (JStr (js "Earlier")));
     loading := false; error := None |}.

End PanelView.

(** ** The effects of the panel: animation and scroll lock *)

Module PanelEffects.

Local Open Scope string_scope.

(** *** The animation effect

    The effect on [isOpen] shows the panel at once and starts its
    animation two frames later, or stops the animation at once and hides
    the panel once a timer has run out; its cleanup cancels the frame
    callback and the timer that are pending.  The browser is a queue of
    frame callbacks and a set of timers; time is left out, only the order
    of events counts. *)

(** The two callbacks handed to [requestAnimationFrame]: the first asks
    for the second and stores its handle in [animationId], the second calls
    [setIsAnimating(true)]. *)
Inductive frame_cb := First | Second.

Record Anim := {
  isOpen : bool;
  isVisible : bool;
  isAnimating : bool;
  (** the run of the effect whose variables [animationId] and [timer]
      these are *)
  run : nat;
  animationId : option positive;
  timer : option positive;
  (** the callbacks waiting for the next frame, with their handle and the
      run of the effect that registered them *)
  frames : list (positive * (nat * frame_cb));
  (** the timers that have not run out; each calls [setIsVisible(false)] *)
  timers : list (positive * nat);
  (** the next handle the browser gives out *)
  next : positive
}.

Definition drop {A} (id : positive) (l : list (positive * A))
  : list (positive * A) :=
  filter (fun x => negb (Pos.eqb (fst x) id)) l.

(** The cleanup: [cancelAnimationFrame(animationId)] and
    [clearTimeout(timer)], each when the variable is set. *)
Definition cleanup (s : Anim) : Anim :=
  {| isOpen := isOpen s; isVisible := isVisible s;
     isAnimating := isAnimating s; run := run s;
     animationId := animationId s; timer := timer s;
     frames := match animationId s with
               | Some id => drop id (frames s)
               | None => frames s
               end;
     timers := match timer s with
               | Some id => drop id (timers s)
               | None => timers s
               end;
     next := next s |}.

(** A run of the effect for the value [b] of [isOpen], with fresh
    variables. *)
Definition effect (b : bool) (s : Anim) : Anim :=
  if b then
    {| isOpen := true; isVisible := true; isAnimating := isAnimating s;
       run := S (run s);
       animationId := Some (next s); timer := None;
       frames := frames s ++ [(next s, (S (run s), First))];
       timers := timers s;
       next := Pos.succ (next s) |}
  else
    {| isOpen := false; isVisible := isVisible s; isAnimating := false;
       run := S (run s);
       animationId := None; timer := Some (next s);
       frames := frames s;
       timers := timers s ++ [(next s, S (run s))];
       next := Pos.succ (next s) |}.

(** One frame callback runs. *)
Definition run_frame_cb (s : Anim) (c : positive * (nat * frame_cb)) : Anim :=
  match snd (snd c) with
  | First =>
    {| isOpen := isOpen s; isVisible := isVisible s;
       isAnimating := isAnimating s; run := run s;
       animationId := if Nat.eqb (fst (snd c)) (run s)
                      then Some (next s) else animationId s;
       timer := timer s;
       frames := frames s ++ [(next s, (fst (snd c), Second))];
       timers := timers s;
       next := Pos.succ (next s) |}
  | Second =>
    {| isOpen := isOpen s; isVisible := isVisible s;
       isAnimating := true; run := run s;
       animationId := animationId s; timer := timer s;
       frames := frames s; timers := timers s; next := next s |}
  end.

Inductive event :=
| SetOpen (b : bool)
| Frame
| Timeout (id : positive).

Definition step (s : Anim) (ev : event) : Anim :=
  match ev with
  | SetOpen b =>
    if Bool.eqb b (isOpen s) then s else effect b (cleanup s)
  | Frame =>
    fold_left run_frame_cb (frames s)
              {| isOpen := isOpen s; isVisible := isVisible s;
                 isAnimating := isAnimating s; run := run s;
                 animationId := animationId s; timer := timer s;
                 frames := []; timers := timers s; next := next s |}
  | Timeout id =>
    if existsb (fun x => Pos.eqb (fst x) id) (timers s) then
      {| isOpen := isOpen s; isVisible := false;
         isAnimating := isAnimating s; run := run s;
         animationId := animationId s; timer := timer s;
         frames := frames s; timers := drop id (timers s);
         next := next s |}
    else s
  end.

(** The component is mounted with [isOpen = b]: the state starts hidden
    and the effect runs once. *)
Definition mount (b : bool) : Anim :=
  effect b {| isOpen := b; isVisible := false; isAnimating := false;
              run := 0; animationId := None; timer := None;
              frames := []; timers := []; next := 1 |}.

Definition after (b : bool) (evs : list event) : Anim :=
  fold_left step evs (mount b).

(** What holds of the animation in every state that can be reached: the
    panel is open and shown, with at most the frame callback of the current
    run pending, or closed and not animating, with at most the timer of the
    current run pending. *)
Definition settled_or_pending (s : Anim) : Prop :=
  if isOpen s then
    isVisible s = true /\ timers s = []
    /\ ((frames s = [] /\ isAnimating s = true)
        \/ exists id cb, frames s = [(id, (run s, cb))]
                         /\ animationId s = Some id)
  else
    isAnimating s = false /\ frames s = []
    /\ ((timers s = [] /\ isVisible s = false)
        \/ exists id, timers s = [(id, run s)] /\ timer s = Some id).

(** Every timer that is pending runs out. *)
Definition expire (s : Anim) : Anim :=
  fold_left (fun s x => step s (Timeout (fst x))) (timers s) s.

(** *** The scroll lock

    [body.style] is the map of the values assigned to its properties, the
    empty string for a property that is not set. *)

Definition Style := string -> string.

Definition set (k v : string) (s : Style) : Style :=
  fun k' => if String.eqb k' k then v else s k'.

Record Window := {
  scrollX : Q;
  scrollY : Q;
  innerWidth : Q;
  clientWidth : Q
}.

(** [originalBodyStyle], with the scroll position read beside it. *)
Record Saved := {
  position : string;
  top : string;
  left : string;
  right : string;
  width : string;
  paddingRight : string;
  overflow : string;
  savedX : Q;
  savedY : Q
}.

Section Lock.

(** The text of a number inside a template literal. *)
Variable num : Q -> string.

(** The body of the effect when the panel is visible. *)
Definition lock (w : Window) (s : Style) : Style * Saved :=
  let scrollBarWidth := (innerWidth w - clientWidth w)%Q in
  (set "paddingRight" (num scrollBarWidth ++ "px")
    (set "overflow" "hidden"
      (set "width" "100%"
        (set "right" "0"
          (set "left" ("-" ++ num (scrollX w) ++ "px")
            (set "top" ("-" ++ num (scrollY w) ++ "px")
              (set "position" "fixed" s)))))),
   {| position := s "position"; top := s "top"; left := s "left";
      right := s "right"; width := s "width";
      paddingRight := s "paddingRight"; overflow := s "overflow";
      savedX := scrollX w; savedY := scrollY w |}).

(** The cleanup: the style after it, and the position handed to
    [window.scrollTo] in the next frame. *)
Definition unlock (o : Saved) (s : Style) : Style * (Q * Q) :=
  (set "overflow" (overflow o)
    (set "paddingRight" (paddingRight o)
      (set "width" (width o)
        (set "right" (right o)
          (set "left" (left o)
            (set "top" (top o)
              (set "position" (position o) s)))))),
   (savedX o, savedY o)).

End Lock.

(** The properties the lock writes. *)
Definition locked_properties : list string :=
  ["position"; "top"; "left"; "right"; "width"; "paddingRight"; "overflow"].

End PanelEffects.

(** * Properties of the playback resolver *)

Module OpenListPlayFacts.

Import Eff OpenListPlay.
Local Open Scope string_scope.
Local Open Scope Z_scope.

Lemma truthy_iff (s : string) : truthy s = true <-> s <> "".
Proof. destruct s; simpl; split; congruence. Qed.

Lemma truthy_opt_iff (o : option string) :
  truthy_opt o = true <-> exists s, o = Some s /\ s <> "".
Proof.
  destruct o as [s|]; simpl.
  - rewrite truthy_iff. split.
    + intros H. now exists s.
    + intros (s' & [= <-] & H). exact H.
  - split; [discriminate | intros (s & H & _); discriminate].
Qed.

Lemma hasValidToken_iff env req :
  hasValidToken env req = true <->
  TVBOX_SUBSCRIBE_TOKEN env = Some (token req) /\ token req <> "".
Proof.
  unfold hasValidToken.
  destruct (TVBOX_SUBSCRIBE_TOKEN env) as [s|].
  - rewrite andb_true_iff, truthy_iff, String.eqb_eq. split.
    + intros [Hs ->]. now split.
    + intros [[= ->] Hs]. now split.
  - split; [discriminate | intros [H _]; discriminate].
Qed.

Lemma hasValidAuth_iff req :
  hasValidAuth req = true <->
  exists a u, authInfo req = Some a /\ username a = Some u /\ u <> "".
Proof.
  unfold hasValidAuth.
  destruct (authInfo req) as [a|].
  - rewrite truthy_opt_iff. split.
    + intros (u & Hu & Hne). now exists a, u.
    + intros (a' & u & [= <-] & Hu & Hne). now exists u.
  - split; [discriminate | intros (a & u & H & _); discriminate].
Qed.

Lemma authorized_iff env req :
  authorized env req <->
  hasValidToken env req = true \/ hasValidAuth req = true.
Proof.
  unfold authorized. now rewrite hasValidToken_iff, hasValidAuth_iff.
Qed.

Lemma unauthorized_gate env req :
  ~ authorized env req ->
  negb (hasValidToken env req) && negb (hasValidAuth req) = true.
Proof.
  rewrite authorized_iff. intros H.
  destruct (hasValidToken env req), (hasValidAuth req); simpl; auto;
    exfalso; apply H; auto.
Qed.

Lemma authorized_gate env req :
  authorized env req ->
  negb (hasValidToken env req) && negb (hasValidAuth req) = false.
Proof.
  rewrite authorized_iff. intros [-> | ->]; simpl; auto.
  now rewrite andb_false_r.
Qed.

(** C1. A request whose path token is not the configured static token and
    that carries no session with a non-empty user name is answered 401 with
    an error body, whatever its [folder] and [fileName] and whatever the
    configuration of the backend; no outward call is made. *)
Theorem unauthorized_is_401 (env : Env) (req : Request) :
  TVBOX_SUBSCRIBE_TOKEN env <> Some (token req) ->
  (forall a u, authInfo req = Some a -> username a = Some u -> u = "") ->
  GET env req = (Json 401 "未授权" None, []).
Proof.
  intros Htok Hsess.
  assert (Hna : ~ authorized env req).
  { intros [[H _] | (a & u & Ha & Hu & Hne)].
    - now apply Htok.
    - apply Hne. eapply Hsess; eauto. }
  unfold GET, GET_body.
  now rewrite (unauthorized_gate Hna).
Qed.

Lemma unauthorized_is_401_witness :
  GET (sample_env good_file) (anonymous (Some "A") (Some "b.mp4"))
  = (Json 401 "未授权" None, []).
Proof.
  apply unauthorized_is_401.
  - simpl. discriminate.
  - simpl. discriminate.
Defined.

(** C2, as stated, fails: a request without [folder] that is not
    authorized is answered 401, not 400. *)
Lemma missing_folder_unauthorized_is_401 :
  folder (anonymous None (Some "b.mp4")) = None
  /\ status_of (fst (GET (sample_env good_file)
                         (anonymous None (Some "b.mp4")))) = 401
  /\ status_of (fst (GET (sample_env good_file)
                         (anonymous None (Some "b.mp4")))) <> 400.
Proof. repeat split. vm_compute. discriminate. Qed.

(** C2, amended. An authorized request whose [folder] or [fileName] is
    absent or empty is answered 400, and neither the configuration is
    loaded nor the file-listing service called. *)
Theorem missing_param_is_400 (env : Env) (req : Request) :
  authorized env req ->
  (forall s, folder req = Some s -> s = "")
  \/ (forall s, fileName req = Some s -> s = "") ->
  GET env req = (Json 400 "缺少参数" None, []).
Proof.
  intros Hauth Hmiss.
  unfold GET, GET_body.
  rewrite (authorized_gate Hauth).
  assert (H : negb (truthy_opt (folder req))
              || negb (truthy_opt (fileName req)) = true).
  { apply orb_true_iff.
    destruct Hmiss as [Hf | Hn]; [left | right]; apply negb_true_iff.
    - destruct (folder req) as [s|]; simpl; auto. now rewrite (Hf s eq_refl).
    - destruct (fileName req) as [s|]; simpl; auto.
      now rewrite (Hn s eq_refl). }
  now rewrite H.
Qed.

Lemma missing_param_is_400_witness :
  GET (sample_env good_file) (with_token (Some "A") None)
  = (Json 400 "缺少参数" None, []).
Proof.
  apply missing_param_is_400.
  - left. simpl. split; [reflexivity | discriminate].
  - right. simpl. discriminate.
Defined.

Lemma GET_cases env req :
  authorized env req ->
  truthy_opt (folder req) = true ->
  truthy_opt (fileName req) = true ->
  upstream_case env req (GET env req).
Proof.
  intros Hauth Hf Hn.
  unfold GET, GET_body.
  rewrite (authorized_gate Hauth), Hf, Hn. simpl.
  destruct (getConfig env) as [e | cfg] eqn:Hcfg; simpl.
  - now apply config_throws.
  - destruct (OpenListConfig_ cfg) as [oc|] eqn:Hoc; simpl.
    2:{ apply not_configured with cfg; auto. }
    destruct (Enabled oc) eqn:He; simpl.
    2:{ apply not_configured with cfg; auto. right. exists oc. auto. }
    destruct (URL oc) as [|c1 u1] eqn:Hu; simpl.
    { apply not_configured with cfg; auto. right. exists oc. auto. }
    destruct (Username oc) as [|c2 u2] eqn:Hus; simpl.
    { apply not_configured with cfg; auto. right. exists oc. auto. }
    destruct (Password oc) as [|c3 u3] eqn:Hp; simpl.
    { apply not_configured with cfg; auto. right. exists oc.
      repeat split; auto. }
    rewrite <- Hu, <- Hus, <- Hp.
    set (path := filePath _ _ _).
    destruct (getFile env (URL oc) (Username oc) (Password oc) path)
      as [e | resp] eqn:Hg; simpl.
    + apply upstream_called with cfg; auto. fold path. now rewrite Hg.
    + destruct (code resp =? 200) eqn:Hc; simpl.
      * destruct (data resp) as [d|] eqn:Hd; simpl.
        -- destruct (raw_url d) as [[|c u]|] eqn:Hr; simpl;
             (apply upstream_called with cfg; auto; fold path;
              now rewrite Hg, Hc, Hd, ?Hr).
        -- apply upstream_called with cfg; auto. fold path.
           now rewrite Hg, Hc, Hd.
      * apply upstream_called with cfg; auto. fold path.
        now rewrite Hg, Hc.
Qed.

Lemma GET_early env req :
  ~ authorized env req \/ truthy_opt (folder req) = false
  \/ truthy_opt (fileName req) = false ->
  snd (GET env req) = [] /\ is_redirect (fst (GET env req)) = false.
Proof.
  intros H. unfold GET, GET_body.
  destruct (negb (hasValidToken env req) && negb (hasValidAuth req)) eqn:Hg;
    simpl; auto.
  destruct H as [H | [H | H]].
  - now rewrite (unauthorized_gate H) in Hg.
  - rewrite H. simpl. auto.
  - rewrite H, orb_true_r. simpl. auto.
Qed.

Lemma gates_dec env req :
  (authorized env req /\ truthy_opt (folder req) = true
   /\ truthy_opt (fileName req) = true)
  \/ (~ authorized env req \/ truthy_opt (folder req) = false
      \/ truthy_opt (fileName req) = false).
Proof.
  rewrite authorized_iff.
  destruct (hasValidToken env req), (hasValidAuth req),
    (truthy_opt (folder req)), (truthy_opt (fileName req));
    intuition congruence.
Qed.


(** The redirect is reached on a sample request. *)
Example redirect_sample :
  GET (sample_env good_file) (with_token (Some "A") (Some "b.mp4"))
  = (Redirect "http://cdn/b.mp4",
     [LoadConfig; GetFile "http://list" "u" "p" "/x/A/b.mp4"]).
Proof. reflexivity. Qed.

(** *** The remote path *)

Section PathLemmas.

Lemma app_assoc_str (a b c : string) : (a ++ b) ++ c = a ++ (b ++ c).
Proof. induction a as [|x a IH]; simpl; [reflexivity | now rewrite IH]. Qed.

Lemma endsWith_slash_cons c s :
  s <> "" -> endsWith_slash (String c s) = endsWith_slash s.
Proof. destruct s; [congruence | reflexivity]. Qed.

Lemma endsWith_slash_app a b :
  b <> "" -> endsWith_slash (a ++ b) = endsWith_slash b.
Proof.
  intros Hb. induction a as [|x a IH]; simpl; [reflexivity |].
  destruct (a ++ b) eqn:E.
  - destruct a; simpl in E; congruence.
  - exact IH.
Qed.

Lemma rstrip_no_slash s : endsWith_slash s = false -> rstrip_slash s = s.
Proof.
  induction s as [|c s IH]; [reflexivity |].
  destruct s as [|d s'].
  - simpl. now intros ->.
  - intros H. rewrite endsWith_slash_cons in H by discriminate.
    change (rstrip_slash (String c (String d s')))
      with (match rstrip_slash (String d s') with
            | EmptyString =>
              if Ascii.eqb c "/" then EmptyString else String c EmptyString
            | r => String c r
            end).
    now rewrite (IH H).
Qed.

Lemma rstrip_one_slash s :
  endsWith_slash s = false -> rstrip_slash (s ++ "/") = s.
Proof.
  induction s as [|c s IH]; [reflexivity |].
  intros H.
  change (rstrip_slash (String c s ++ "/"))
    with (match rstrip_slash (s ++ "/") with
          | EmptyString =>
            if Ascii.eqb c "/" then EmptyString else String c EmptyString
          | r => String c r
          end).
  destruct s as [|d s'].
  - simpl in *. now rewrite H.
  - rewrite endsWith_slash_cons in H by discriminate.
    now rewrite (IH H).
Qed.

Lemma split_final_slash s :
  endsWith_slash s = true -> endsWith_two_slashes s = false ->
  exists r, s = r ++ "/" /\ endsWith_slash r = false.
Proof.
  induction s as [|c s IH]; [discriminate |].
  destruct s as [|d s'].
  - simpl. intros Hc _. apply Ascii.eqb_eq in Hc. subst c.
    now exists "".
  - intros H1 H2. rewrite endsWith_slash_cons in H1 by discriminate.
    destruct s' as [|e s''].
    + simpl in H1, H2. apply Ascii.eqb_eq in H1. subst d.
      rewrite andb_true_r in H2.
      exists (String c ""). simpl. now rewrite H2.
    + assert (H2' : endsWith_two_slashes (String d (String e s'')) = false)
        by exact H2.
      destruct (IH H1 H2') as (r & Hr & Hnr).
      exists (String c r). split.
      * simpl. now rewrite <- Hr.
      * destruct r as [|x r']; [discriminate |].
        now rewrite endsWith_slash_cons by discriminate.
Qed.

Lemma lstrip_no_slash s : startsWith_slash s = false -> lstrip_slash s = s.
Proof. destruct s as [|c s]; simpl; [reflexivity | now intros ->]. Qed.

End PathLemmas.

(** C4, as stated, fails: the slash between folder and file is added
    without looking at the folder, so a folder name that ends with a slash
    leaves two slashes at that join. *)
Lemma folder_final_slash_is_doubled :
  filePath "/x/" "A/" "b.mp4" = "/x/A//b.mp4"
  /\ spec_filePath "/x/" "A/" "b.mp4" = "/x/A/b.mp4"
  /\ String.eqb (filePath "/x/" "A/" "b.mp4")
                (spec_filePath "/x/" "A/" "b.mp4") = false.
Proof. repeat split. Qed.

(** C4, amended. The path is the root, a slash unless the root ends with
    one, the folder, a slash, and the file.  When the root does not end with
    two slashes, the folder neither starts nor ends with a slash, and the
    file does not start with one, this is the join with exactly one slash
    at each join point; root ["/x/"], folder ["A"], file ["b.mp4"] give
    ["/x/A/b.mp4"]. *)
Theorem filePath_single_slash (root folderName file : string) :
  endsWith_two_slashes root = false ->
  folderName <> "" ->
  startsWith_slash folderName = false ->
  endsWith_slash folderName = false ->
  startsWith_slash file = false ->
  filePath root folderName file
  = root ++ (if endsWith_slash root then "" else "/") ++ folderName
         ++ "/" ++ file
  /\ filePath root folderName file = spec_filePath root folderName file
  /\ filePath "/x/" "A" "b.mp4" = "/x/A/b.mp4".
Proof.
  intros Hroot Hne Hfs Hfe Hns.
  split; [| split; [| reflexivity]].
  - unfold filePath, folderPath. now rewrite !app_assoc_str.
  - unfold spec_filePath, spec_join.
    rewrite (lstrip_no_slash _ Hfs), (lstrip_no_slash _ Hns).
    assert (Hfp : endsWith_slash (rstrip_slash root ++ "/" ++ folderName)
                  = false).
    { rewrite endsWith_slash_app by discriminate.
      change ("/" ++ folderName) with (String "/" folderName).
      now rewrite endsWith_slash_cons. }
    rewrite (rstrip_no_slash _ Hfp).
    unfold filePath, folderPath.
    destruct (endsWith_slash root) eqn:He.
    + destruct (split_final_slash _ He Hroot) as (r & -> & Hr).
      rewrite (rstrip_one_slash _ Hr). simpl.
      now rewrite !app_assoc_str.
    + now rewrite (rstrip_no_slash _ He).
Qed.

Lemma filePath_single_slash_witness :
  filePath "/x/" "A" "b.mp4"
  = "/x/" ++ (if endsWith_slash "/x/" then "" else "/") ++ "A"
          ++ "/" ++ "b.mp4"
  /\ filePath "/x/" "A" "b.mp4" = spec_filePath "/x/" "A" "b.mp4"
  /\ filePath "/x/" "A" "b.mp4" = "/x/A/b.mp4".
Proof.
  apply filePath_single_slash;
    first [reflexivity | discriminate].
Defined.

End OpenListPlayFacts.

(** * Properties of the detail cascade *)

Module DetailPanelFacts.

Import Eff DetailPanel.

#[local] Arguments js : simpl never.

(** *** The season marker *)

Section Season.

Local Open Scope N_scope.

Lemma digit_cases (d : N) :
  is_digit d = true ->
  In d [0x30; 0x31; 0x32; 0x33; 0x34; 0x35; 0x36; 0x37; 0x38; 0x39].
Proof.
  unfold is_digit. rewrite andb_true_iff, !N.leb_le. intros [Hlo Hhi].
  simpl. lia.
Qed.

Ltac by_digit H :=
  apply digit_cases in H; simpl in H;
  repeat (destruct H as [<- | H]; [reflexivity |]); destruct H.





Lemma digit_not_numeral d : is_digit d = true -> is_numeral d = false.
Proof. intros H. by_digit H. Qed.








(** A greedy repetition followed by something that matches takes the whole
    run of characters of the class. *)
Lemma rep_greedy_run {R} (p : N -> bool) (run rest : jstring) (c : N)
      (k : jstring -> option R) (r : R) :
  forall min,
    forallb p run = true -> p c = false ->
    (min <= length run)%nat ->
    k (c :: rest) = Some r ->
    rep_greedy p min (run ++ c :: rest) k = Some r.
Proof.
  induction run as [|x run IH]; intros min Hrun Hc Hmin Hk.
  - simpl in Hmin. assert (min = 0%nat) as -> by lia.
    simpl. now rewrite Hc.
  - simpl in Hrun. apply andb_true_iff in Hrun. destruct Hrun as [Hx Hrun].
    cbn [app rep_greedy]. rewrite Hx.
    rewrite (IH (Nat.pred min)); auto. simpl in Hmin. lia.
Qed.

Lemma firstn_run (run tail : jstring) :
  firstn (length (run ++ tail) - length tail) (run ++ tail) = run.
Proof.
  rewrite length_app, Nat.add_sub.
  rewrite firstn_app, Nat.sub_diag, firstn_all. simpl.
  apply app_nil_r.
Qed.

(** At the character [第] followed by a run of numerals and digits and by
    [季] or [部], the first pattern matches and captures the run. *)
Lemma cjk_match_here (acc run post : jstring) (mark : N) :
  run <> [] -> forallb cjk_class run = true -> is_mark mark = true ->
  match_at pattern_cjk acc (c_di :: run ++ mark :: post)
  = Some {| before := rev acc; group1 := run; after := post |}.
Proof.
  intros Hne Hrun Hmark.
  unfold match_at, pattern_cjk. cbn [exec]. unfold is_char at 1.
  rewrite N.eqb_refl.
  erewrite rep_greedy_run; [reflexivity | exact Hrun | | | ].
  - unfold is_mark in Hmark. apply orb_true_iff in Hmark.
    destruct Hmark as [E | E]; apply N.eqb_eq in E; subst mark; reflexivity.
  - destruct run; [congruence | simpl; lia].
  - cbv beta. rewrite Hmark. now rewrite firstn_run.
Qed.

(** Before the first [第] the first pattern matches nowhere. *)
Lemma cjk_search_skip (pre acc rest : jstring) :
  ~ In c_di pre ->
  search pattern_cjk acc (pre ++ rest)
  = search pattern_cjk (rev pre ++ acc) rest.
Proof.
  revert acc. induction pre as [|c pre IH]; intros acc Hnot; [reflexivity |].
  assert (Hc : is_char c_di c = false).
  { unfold is_char. apply N.eqb_neq. intros ->. apply Hnot. now left. }
  cbn [app search]. unfold match_at at 1, pattern_cjk at 1. cbn [exec].
  rewrite Hc. rewrite IH.
  - simpl. now rewrite <- app_assoc.
  - intros H. apply Hnot. now right.
Qed.

Lemma search_hit (r : regex) (acc s : jstring) (m : Match) :
  match_at r acc s = Some m -> search r acc s = Some m.
Proof. intros H. destruct s; simpl; now rewrite H. Qed.

Lemma cjk_match (pre run post : jstring) (mark : N) :
  ~ In c_di pre ->
  run <> [] -> forallb cjk_class run = true -> is_mark mark = true ->
  str_match (pre ++ c_di :: run ++ mark :: post) pattern_cjk
  = Some {| before := pre; group1 := run; after := post |}.
Proof.
  intros Hpre Hne Hrun Hmark. unfold str_match.
  rewrite cjk_search_skip by exact Hpre.
  erewrite search_hit by (apply cjk_match_here; eassumption).
  now rewrite app_nil_r, rev_involutive.
Qed.

(** The title with its first season marker of the form [第..季] or
    [第..部] cut out, and the season number: the one supplied, or else the
    one read from the marker. *)
Lemma strip_season_cjk (pre run post : jstring) (mark : N) (sn : jsval) :
  ~ In c_di pre ->
  run <> [] -> forallb cjk_class run = true -> is_mark mark = true ->
  strip_season (pre ++ c_di :: run ++ mark :: post) sn
  = (trim (pre ++ post),
     if truthy sn then sn else season_of_capture run).
Proof.
  intros Hpre Hne Hrun Hmark.
  unfold strip_season, seasonPatterns. cbn [strip_season_loop].
  unfold str_replace_empty.
  rewrite cjk_match by assumption. cbn [before after group1].
  now destruct (truthy sn).
Qed.









Lemma strip_season_loop_first_match (patterns : list regex)
      (title : jstring) (sn : jsval) :
  strip_season_loop patterns title sn
  = match first_match patterns title with
    | Some m =>
      (trim (before m ++ after m),
       if truthy sn then sn else season_of_capture (group1 m))
    | None => (title, sn)
    end.
Proof.
  induction patterns as [|pat rest IH]; [reflexivity |].
  cbn [strip_season_loop first_match]. unfold str_replace_empty.
  destruct (str_match title pat); [| exact IH].
  now destruct (truthy sn).
Qed.

End Season.

Section Runs.

Variable TS : jsval -> jstring.
Variable TN : jsval -> option Q.
Variable P : Props.
Variable W : World.

(** Steps 1 and 2 never throw, and ask at most for the source detail. *)
Lemma cms_steps_shape :
  exists r t, cms_steps P W = (inr r, t)
              /\ (t = [] \/ t = [(source_detail_request P)]).
Proof.
  unfold cms_steps, fetch, call, try_catch, bind, lift, ret.
  destruct (cmsData P) as [c|]; [| eauto].
  destruct (str_truthy (desc c)); [eauto |].
  destruct (str_truthy (sourceId P) && str_truthy (source P)); [| eauto].
  destruct (W (source_detail_request P)) as [e | resp]; simpl; [eauto |].
  destruct (ok resp); simpl; [| eauto].
  destruct (json resp) as [e | data]; simpl; [eauto |].
  destruct (source_detail_record P c data); simpl; eauto.
Qed.

Lemma fetchDetail_unfold :
  fetchDetail TS TN P W
  = match cms_steps P W with
    | (inr (Some d), t) => (Resolved d, t)
    | (inr None, t) =>
      (outcome_of (fst (id_steps TS TN P W)), t ++ snd (id_steps TS TN P W))
    | (inl e, t) => (Failed e, t)
    end.
Proof.
  unfold fetchDetail, fetchDetail_body, bind, ret.
  destruct (cms_steps P W) as [[e | [d|]] t]; simpl; auto.
  - now rewrite app_nil_r.
  - destruct (id_steps TS TN P W) as [[e | d] t']; reflexivity.
Qed.

Lemma bangumi_steps_trace :
  snd (bangumi_steps P W)
  = [BangumiSubject (or (of_num_opt (bangumiId P)) (of_num_opt (doubanId P)))].
Proof.
  unfold bangumi_steps, fetch, call, bind, lift, throw.
  destruct (W _) as [e | resp]; simpl; auto.
  destruct (ok resp); simpl; auto.
  destruct (json resp) as [e | data]; simpl; auto.
Qed.

Lemma douban_steps_trace :
  snd (douban_steps P W) = [DoubanDetail (of_num_opt (doubanId P))].
Proof.
  unfold douban_steps, fetch, call, bind, lift, throw.
  destruct (W _) as [e | resp]; simpl; auto.
  destruct (ok resp); simpl; auto.
  destruct (json resp) as [e | data]; simpl; auto.
Qed.

(** The season step never throws; it makes at most the season request. *)
Lemma season_steps_shape id mt s :
  exists v t, season_steps W id mt s = (inr v, t)
              /\ (t = [] \/ t = [TmdbSeason id s]).
Proof.
  unfold season_steps, fetch, call, try_catch, bind, lift, ret.
  destruct (truthy s && is_str mt (js "tv")); [| eauto].
  destruct (W (TmdbSeason id s)) as [e | resp]; simpl; [eauto |].
  destruct (ok resp); simpl; [| eauto].
  destruct (json resp) as [e | v]; simpl; eauto.
Qed.

Lemma tmdb_steps_trace : forallb is_tmdb (snd (tmdb_steps TS TN P W)) = true.
Proof.
  unfold tmdb_steps, fetch, call, bind, lift, throw.
  destruct (W (TmdbSearch _)) as [e | sresp]; simpl; auto.
  destruct (ok sresp); simpl; auto.
  destruct (json sresp) as [e | sdata]; simpl; auto.
  destruct (read sdata (js "results")) as [e | results]; simpl; auto.
  destruct (truthy results && gt0 TN (prop results (js "length")));
    simpl; auto.
  destruct (read (index0 results) (js "id")) as [e | detailId]; simpl; auto.
  destruct (W (TmdbDetail _ _)) as [e | dresp]; simpl; auto.
  destruct (ok dresp); simpl; auto.
  destruct (json dresp) as [e | detail]; simpl; auto.
  match goal with
  | |- context [season_steps W ?i ?m ?s] =>
    destruct (season_steps_shape i m s) as (v & t & -> & [-> | ->])
  end; simpl; reflexivity.
Qed.

Lemma id_steps_cases :
  id_steps TS TN P W
  = if bangumi_applies P then bangumi_steps P W
    else if douban_applies P then douban_steps P W
    else if truthy (JStr (title P)) then tmdb_steps TS TN P W
    else (inl (Thrown (js "缺少必要的查询参数")), []).
Proof. reflexivity. Qed.

(** C7. When the inline CMS data carries a non-empty synopsis, the run
    resolves at once: the synopsis of the record is that string, its episode
    count is the length of the episode list supplied (absent when none is),
    and no request is made. *)
Theorem inline_synopsis_is_used (c : CmsData) (d : jstring)
        (st : PanelState) :
  cmsData P = Some c -> desc c = Some d -> d <> [] ->
  exists r,
    fetchDetail TS TN P W = (Resolved r, [])
    /\ fetchDetail_state TS TN P W st
       = ({| detailData := Some r; loading := false; error := None |}, [])
    /\ DetailData.intro r = JStr d
    /\ (forall l, episodes c = Some l ->
                  DetailData.episodesCount r
                  = JNum (inject_Z (Z.of_nat (length l))))
    /\ (episodes c = None -> DetailData.episodesCount r = JUndef).
Proof.
  intros Hc Hd Hne.
  exists (cms_record P c d).
  assert (Hrun : fetchDetail TS TN P W = (Resolved (cms_record P c d), [])).
  { rewrite fetchDetail_unfold. unfold cms_steps.
    rewrite Hc. unfold str_truthy. rewrite Hd. simpl.
    destruct d; [congruence | reflexivity]. }
  split; [exact Hrun |]. split.
  { unfold fetchDetail_state. now rewrite Hrun. }
  split; [reflexivity |]. split.
  - intros l Hl. simpl. now rewrite Hl.
  - intros Hl. simpl. now rewrite Hl.
Qed.

Lemma in_forallb {A} (f : A -> bool) (l : list A) (x : A) :
  In x l -> forallb f l = true -> f x = true.
Proof. intros Hin Hall. rewrite forallb_forall in Hall. auto. Qed.

(** Where a request of steps 3 to 5 comes from: it was made by [id_steps],
    after steps 1 and 2 yielded no record. *)
Lemma later_request_origin (q : Request) :
  In q (snd (fetchDetail TS TN P W)) ->
  q <> source_detail_request P ->
  exists t0,
    cms_steps P W = (inr None, t0)
    /\ fetchDetail TS TN P W
       = (outcome_of (fst (id_steps TS TN P W)),
          t0 ++ snd (id_steps TS TN P W))
    /\ (t0 = [] \/ t0 = [source_detail_request P])
    /\ In q (snd (id_steps TS TN P W)).
Proof.
  rewrite fetchDetail_unfold.
  destruct cms_steps_shape as (r & t0 & -> & Ht0).
  destruct r as [d|]; simpl.
  - intros Hin Hq. exfalso.
    destruct Ht0 as [-> | ->]; simpl in Hin; intuition congruence.
  - intros Hin Hq. exists t0. repeat split; auto.
    apply in_app_or in Hin. destruct Hin as [Hin | Hin]; auto.
    exfalso. destruct Ht0 as [-> | ->]; simpl in Hin; intuition congruence.
Qed.

Lemma bangumi_request_origin (id : jsval) :
  In (BangumiSubject id) (snd (id_steps TS TN P W)) ->
  bangumi_applies P = true
  /\ id = or (of_num_opt (bangumiId P)) (of_num_opt (doubanId P)).
Proof.
  rewrite id_steps_cases.
  destruct (bangumi_applies P).
  - rewrite bangumi_steps_trace. simpl. intuition congruence.
  - destruct (douban_applies P).
    + rewrite douban_steps_trace. simpl. intuition congruence.
    + destruct (truthy (JStr (title P))); simpl; [| tauto].
      intros Hin. apply in_forallb with (f := is_tmdb) in Hin.
      * discriminate.
      * apply tmdb_steps_trace.
Qed.

Lemma douban_request_origin (id : jsval) :
  In (DoubanDetail id) (snd (id_steps TS TN P W)) ->
  bangumi_applies P = false /\ douban_applies P = true
  /\ id = of_num_opt (doubanId P).
Proof.
  rewrite id_steps_cases.
  destruct (bangumi_applies P).
  - rewrite bangumi_steps_trace. simpl. intuition congruence.
  - destruct (douban_applies P).
    + rewrite douban_steps_trace. simpl. intuition congruence.
    + destruct (truthy (JStr (title P))); simpl; [| tauto].
      intros Hin. apply in_forallb with (f := is_tmdb) in Hin.
      * discriminate.
      * apply tmdb_steps_trace.
Qed.





Lemma truthy_num (q : Q) : truthy (JNum q) = true <-> ~ (q == 0)%Q.
Proof.
  simpl. rewrite negb_true_iff. split.
  - intros H E. apply Qeq_bool_iff in E. congruence.
  - intros H. destruct (Qeq_bool q 0) eqn:E; auto.
    apply Qeq_bool_iff in E. contradiction.
Qed.

Lemma bangumi_id_first (b : Q) :
  fst (cms_steps P W) = inr None ->
  bangumiId P = Some b ->
  ~ (b == 0)%Q ->
  snd (fetchDetail TS TN P W)
  = snd (cms_steps P W) ++ [BangumiSubject (JNum b)]
  /\ (forall id,
         In (BangumiSubject id) (snd (fetchDetail TS TN P W)) -> id = JNum b).
Proof.
  intros Hcms Hb Hnz.
  assert (Happ : bangumi_applies P = true).
  { unfold bangumi_applies. rewrite Hb. simpl of_num_opt.
    apply truthy_num in Hnz. now rewrite Hnz. }
  assert (Hid : or (of_num_opt (bangumiId P)) (of_num_opt (doubanId P))
                = JNum b).
  { rewrite Hb. unfold or. simpl of_num_opt.
    apply truthy_num in Hnz. now rewrite Hnz. }
  assert (Htr : snd (fetchDetail TS TN P W)
                = snd (cms_steps P W) ++ [BangumiSubject (JNum b)]).
  { rewrite fetchDetail_unfold.
    destruct (cms_steps P W) as [r t0]. simpl in Hcms. subst r. simpl.
    now rewrite id_steps_cases, Happ, bangumi_steps_trace, Hid. }
  split; [exact Htr |].
  intros id Hin. rewrite Htr in Hin.
  apply in_app_or in Hin. destruct Hin as [Hin | [[= <-] | []]]; auto.
  exfalso. destruct cms_steps_shape as (r & t & E & Ht).
  rewrite E in Hin. simpl in Hin. unfold source_detail_request in Ht.
  destruct Ht as [-> | ->]; simpl in Hin; intuition congruence.
Qed.

Lemma bangumi_id_origin (id : jsval) :
  In (BangumiSubject id) (snd (fetchDetail TS TN P W)) ->
  (exists b, bangumiId P = Some b /\ ~ (b == 0)%Q /\ id = JNum b)
  \/ ((forall b, bangumiId P = Some b -> (b == 0)%Q)
      /\ isBangumi P = Some true
      /\ exists d, doubanId P = Some d /\ ~ (d == 0)%Q /\ id = JNum d).
Proof.
  intros Hin.
  destruct (later_request_origin Hin) as (t0 & _ & _ & _ & Hin');
    [discriminate |].
  destruct (bangumi_request_origin _ Hin') as [Happ ->].
  unfold bangumi_applies in Happ. unfold or.
  destruct (bangumiId P) as [b'|]; simpl of_num_opt in *.
  - destruct (truthy (JNum b')) eqn:Hb'.
    + left. exists b'. repeat split; auto. now apply truthy_num.
    + right. simpl in Happ. apply andb_true_iff in Happ.
      destruct Happ as [Hflag Hd]. split; [| split].
      * intros ? [= <-]. simpl in Hb'. apply negb_false_iff in Hb'.
        now apply Qeq_bool_iff.
      * destruct (isBangumi P) as [[]|]; simpl in Hflag; congruence.
      * destruct (doubanId P) as [d|]; [| discriminate].
        exists d. repeat split; auto. now apply truthy_num.
  - right. simpl in Happ. apply andb_true_iff in Happ.
    destruct Happ as [Hflag Hd]. split; [| split].
    + discriminate.
    + destruct (isBangumi P) as [[]|]; simpl in Hflag; congruence.
    + destruct (doubanId P) as [d|]; [| discriminate].
      exists d. repeat split; auto. now apply truthy_num.
Qed.

Lemma tmdb_request_origin (q : Request) :
  In q (snd (id_steps TS TN P W)) -> is_tmdb q = true ->
  id_steps TS TN P W = tmdb_steps TS TN P W.
Proof.
  rewrite id_steps_cases.
  destruct (bangumi_applies P).
  - rewrite bangumi_steps_trace. simpl. intros [<- | []]. discriminate.
  - destruct (douban_applies P).
    + rewrite douban_steps_trace. simpl. intros [<- | []]. discriminate.
    + destruct (truthy (JStr (title P))); simpl; tauto.
Qed.









(** *** Where the title of a record comes from *)

Lemma cms_resolved (d : DetailData.t) (t : list Request) :
  cms_steps P W = (inr (Some d), t) ->
  (t = [] /\ DetailData.title d = JStr (title P))
  \/ (t = [source_detail_request P]
      /\ exists resp data,
          W (source_detail_request P) = inr resp
          /\ json resp = inr data
          /\ DetailData.title d
             = or (prop data (js "title")) (JStr (title P))).
Proof.
  unfold cms_steps, fetch, call, try_catch, bind, lift, ret.
  destruct (cmsData P) as [c|]; [| discriminate].
  destruct (str_truthy (desc c)).
  { intros [= <- <-]. now left. }
  destruct (str_truthy (sourceId P) && str_truthy (source P));
    [| discriminate].
  destruct (W (source_detail_request P)) as [e | resp]; simpl;
    [discriminate |].
  destruct (ok resp); simpl; [| discriminate].
  destruct (json resp) as [e | data] eqn:Hj; simpl; [discriminate |].
  unfold source_detail_record.
  destruct (nullish data); simpl; [discriminate |].
  intros [= <- <-]. right. split; auto. exists resp, data. auto.
Qed.

Lemma bangumi_resolved (r : DetailData.t) :
  fst (bangumi_steps P W) = inr r ->
  exists resp data,
    W (BangumiSubject
         (or (of_num_opt (bangumiId P)) (of_num_opt (doubanId P))))
    = inr resp
    /\ json resp = inr data
    /\ DetailData.title r
       = or (prop data (js "name_cn")) (prop data (js "name")).
Proof.
  unfold bangumi_steps, fetch, call, bind, lift, throw.
  destruct (W _) as [e | resp] eqn:HW; simpl; [discriminate |].
  destruct (ok resp); simpl; [| discriminate].
  destruct (json resp) as [e | data] eqn:Hj; simpl; [discriminate |].
  unfold bangumi_record, sbind.
  destruct (nullish data); [discriminate |].
  destruct (if truthy _ then _ else _); [discriminate |].
  destruct (opt_map_name _ _); [discriminate |].
  intros [= <-]. exists resp, data. auto.
Qed.

Lemma douban_resolved (r : DetailData.t) :
  fst (douban_steps P W) = inr r ->
  exists resp data,
    W (DoubanDetail (of_num_opt (doubanId P))) = inr resp
    /\ json resp = inr data
    /\ DetailData.title r = prop data (js "title").
Proof.
  unfold douban_steps, fetch, call, bind, lift, throw.
  destruct (W _) as [e | resp] eqn:HW; simpl; [discriminate |].
  destruct (ok resp); simpl; [| discriminate].
  destruct (json resp) as [e | data] eqn:Hj; simpl; [discriminate |].
  unfold douban_record.
  destruct (nullish data); [discriminate |].
  intros [= <-]. exists resp, data. auto.
Qed.

Lemma tmdb_record_title (mt detail sv : jsval) (r : DetailData.t) :
  tmdb_record TS P mt detail sv = inr r ->
  DetailData.title r
  = if is_str mt (js "movie") then prop detail (js "title")
    else prop detail (js "name").
Proof.
  unfold tmdb_record, sbind.
  destruct (nullish detail); [discriminate |].
  destruct (opt_substring04 _); [discriminate |].
  do 3 (destruct (opt_map_name _ _); [discriminate |]).
  intros [= <-]. reflexivity.
Qed.

(** A resolved TMDB run made exactly one detail request, and the title
    comes from its answer. *)
Lemma tmdb_resolved (r : DetailData.t) :
  fst (tmdb_steps TS TN P W) = inr r ->
  exists id mt dresp detail,
    In (TmdbDetail id mt) (snd (tmdb_steps TS TN P W))
    /\ (forall id' mt', In (TmdbDetail id' mt') (snd (tmdb_steps TS TN P W))
                        -> id' = id /\ mt' = mt)
    /\ W (TmdbDetail id mt) = inr dresp
    /\ json dresp = inr detail
    /\ DetailData.title r
       = if is_str mt (js "movie") then prop detail (js "title")
         else prop detail (js "name").
Proof.
  unfold tmdb_steps, fetch, call, bind, lift, throw.
  destruct (W (TmdbSearch _)) as [e | sresp]; simpl; [discriminate |].
  destruct (ok sresp); simpl; [| discriminate].
  destruct (json sresp) as [e | sdata]; simpl; [discriminate |].
  destruct (read sdata (js "results")) as [e | results]; simpl;
    [discriminate |].
  destruct (truthy results && gt0 TN (prop results (js "length")));
    simpl; [| discriminate].
  destruct (read (index0 results) (js "id")) as [e | detailId]; simpl;
    [discriminate |].
  set (mt := or _ _).
  destruct (W (TmdbDetail detailId mt)) as [e | dresp] eqn:HW; simpl;
    [discriminate |].
  destruct (ok dresp); simpl; [| discriminate].
  destruct (json dresp) as [e | detail] eqn:Hj; simpl; [discriminate |].
  set (esn := snd (strip_season _ _)).
  destruct (season_steps_shape detailId mt esn) as (v & t & E & Ht).
  rewrite E. simpl.
  intros Hrec. apply tmdb_record_title in Hrec.
  exists detailId, mt, dresp, detail. repeat split; auto.
  - destruct Ht as [-> | ->]; simpl in H; intuition congruence.
  - destruct Ht as [-> | ->]; simpl in H; intuition congruence.
Qed.

Lemma id_steps_resolved (r : DetailData.t) :
  fst (id_steps TS TN P W) = inr r ->
  (exists id resp data,
      snd (id_steps TS TN P W) = [BangumiSubject id]
      /\ W (BangumiSubject id) = inr resp /\ json resp = inr data
      /\ DetailData.title r
         = or (prop data (js "name_cn")) (prop data (js "name")))
  \/ (exists id resp data,
         snd (id_steps TS TN P W) = [DoubanDetail id]
         /\ W (DoubanDetail id) = inr resp /\ json resp = inr data
         /\ DetailData.title r = prop data (js "title"))
  \/ (forallb is_tmdb (snd (id_steps TS TN P W)) = true
      /\ exists id mt dresp detail,
          In (TmdbDetail id mt) (snd (id_steps TS TN P W))
          /\ (forall id' mt',
                 In (TmdbDetail id' mt') (snd (id_steps TS TN P W)) ->
                 id' = id /\ mt' = mt)
          /\ W (TmdbDetail id mt) = inr dresp /\ json dresp = inr detail
          /\ DetailData.title r
             = if is_str mt (js "movie") then prop detail (js "title")
               else prop detail (js "name")).
Proof.
  rewrite id_steps_cases.
  destruct (bangumi_applies P).
  - intros H. left. destruct (bangumi_resolved H) as (resp & data & H1).
    rewrite bangumi_steps_trace. eauto.
  - destruct (douban_applies P).
    + intros H. right. left.
      destruct (douban_resolved H) as (resp & data & H1).
      rewrite douban_steps_trace. eauto.
    + destruct (truthy (JStr (title P))); [| discriminate].
      intros H. right. right. split; [apply tmdb_steps_trace |].
      now apply tmdb_resolved.
Qed.

Lemma resolved_title_source (r : DetailData.t) :
  fst (fetchDetail TS TN P W) = Resolved r -> title_source TS TN P W r.
Proof.
  unfold title_source. rewrite fetchDetail_unfold.
  destruct (cms_steps P W) as [[e | [d|]] t0] eqn:Hcms; simpl.
  - discriminate.
  - intros [= ->].
    destruct (cms_resolved Hcms) as [[-> Ht] | [-> Ht]]; auto.
  - intros Hres.
    destruct (fst (id_steps TS TN P W)) as [e | r'] eqn:Hid;
      [discriminate |].
    injection Hres as ->.
    destruct (id_steps_resolved Hid)
      as [(id & resp & data & -> & H) | [(id & resp & data & -> & H)
         | (_ & id & mt & resp & detail & Hin & _ & H)]].
    + right. right. left. exists id, resp, data. split; auto.
      apply in_or_app. right. now left.
    + right. right. right. left. exists id, resp, data. split; auto.
      apply in_or_app. right. now left.
    + right. right. right. right. exists id, mt, resp, detail. split; auto.
      apply in_or_app. now right.
Qed.

Lemma cms_title_is_truthy (r : DetailData.t) :
  fst (fetchDetail TS TN P W) = Resolved r ->
  snd (fetchDetail TS TN P W) = []
  \/ snd (fetchDetail TS TN P W) = [source_detail_request P] ->
  title P <> [] ->
  truthy (DetailData.title r) = true.
Proof.
  intros Hres Htr Hne.
  assert (Ht : truthy (JStr (title P)) = true).
  { simpl. destruct (title P); congruence. }
  unfold source_detail_request in Htr.
  destruct (resolved_title_source Hres)
    as [[_ ->] | [(_ & resp & data & _ & _ & ->)
       | [(id & ? & ? & Hin & _) | [(id & ? & ? & Hin & _)
       | (id & ? & ? & ? & Hin & _)]]]]; auto.
  - unfold or. destruct (truthy (prop data (js "title"))) eqn:E; auto.
  - destruct Htr as [E | E]; rewrite E in Hin; simpl in Hin;
      intuition congruence.
  - destruct Htr as [E | E]; rewrite E in Hin; simpl in Hin;
      intuition congruence.
  - destruct Htr as [E | E]; rewrite E in Hin; simpl in Hin;
      intuition congruence.
Qed.


End Runs.

Lemma inline_synopsis_is_used_witness :
  exists r,
    fetchDetail same_ToString same_ToNumber
                (props_of (js "T") None (Some 5%Q) None (Some sample_cms))
                offline
    = (Resolved r, [])
    /\ fetchDetail_state same_ToString same_ToNumber
                         (props_of (js "T") None (Some 5%Q) None
                                   (Some sample_cms))
                         offline idle
       = ({| detailData := Some r; loading := false; error := None |}, [])
    /\ DetailData.intro r = JStr (js "X")
    /\ (forall l, episodes sample_cms = Some l ->
                  DetailData.episodesCount r
                  = JNum (inject_Z (Z.of_nat (length l))))
    /\ (episodes sample_cms = None -> DetailData.episodesCount r = JUndef).
Proof.
  apply (@inline_synopsis_is_used same_ToString same_ToNumber
           (props_of (js "T") None (Some 5%Q) None (Some sample_cms))
           offline sample_cms (js "X") idle).
  - reflexivity.
  - reflexivity.
  - vm_compute. discriminate.
Defined.

(** C9, as stated, fails: with an inline synopsis the run ends in step 1,
    and a Bangumi id supplied with it is never looked up. *)
Lemma bangumi_id_unused_after_inline_synopsis :
  bangumiId (props_of (js "T") None (Some 5%Q) None (Some sample_cms))
  = Some 5%Q
  /\ snd (fetchDetail same_ToString same_ToNumber
                      (props_of (js "T") None (Some 5%Q) None
                                (Some sample_cms))
                      (fun _ => answer (JObj [])))
     = [].
Proof. split; reflexivity. Qed.

(** C9, amended. When steps 1 and 2 yield no record and a non-zero Bangumi
    id is supplied, the Bangumi lookup is the next request and uses that id,
    whatever the flag and the Douban id are.  A Bangumi lookup made with
    any other id is made with the Douban id, and then no non-zero Bangumi
    id was supplied and the flag is set. *)
Theorem bangumi_id_comes_first
        (TS : jsval -> jstring) (TN : jsval -> option Q) :
  (forall P W b,
      fst (cms_steps P W) = inr None ->
      bangumiId P = Some b ->
      ~ (b == 0)%Q ->
      snd (fetchDetail TS TN P W)
      = snd (cms_steps P W) ++ [BangumiSubject (JNum b)]
      /\ (forall id,
             In (BangumiSubject id) (snd (fetchDetail TS TN P W)) ->
             id = JNum b))
  /\ (forall P W id,
         In (BangumiSubject id) (snd (fetchDetail TS TN P W)) ->
         (exists b, bangumiId P = Some b /\ ~ (b == 0)%Q /\ id = JNum b)
         \/ ((forall b, bangumiId P = Some b -> (b == 0)%Q)
             /\ isBangumi P = Some true
             /\ exists d, doubanId P = Some d /\ ~ (d == 0)%Q
                          /\ id = JNum d)).
Proof.
  split.
  - intros P W b. apply bangumi_id_first.
  - intros P W id. apply bangumi_id_origin.
Qed.

(** Both ids and a cleared flag: the Bangumi id is looked up. *)
Lemma bangumi_id_comes_first_witness :
  snd (fetchDetail same_ToString same_ToNumber
                   (props_of (js "T") (Some 7%Q) (Some 5%Q) (Some false) None)
                   offline)
  = [BangumiSubject (JNum 5)].
Proof.
  apply (proj1 (bangumi_id_comes_first same_ToString same_ToNumber)
               (props_of (js "T") (Some 7%Q) (Some 5%Q) (Some false) None)
               offline 5%Q).
  - reflexivity.
  - reflexivity.
  - intros H. discriminate H.
Defined.


(** The same run, evaluated: the season request is made and refused, and
    the record carries the overview of the show. *)
Example season_failure_sample :
  exists r,
    fetchDetail same_ToString same_ToNumber
                (props_of (js "剑王朝第二季") None None None None)
                (tmdb_world refuse)
    = (Resolved r,
       [ TmdbSearch (js "剑王朝");
         TmdbDetail (JNum 42) (JStr (js "tv"));
         TmdbSeason (JNum 42) (JNum 2) ])
    /\ DetailData.intro r = JStr (js "show overview")
    /\ DetailData.title r = JStr (js "剑王朝").
Proof. eexists. split; [vm_compute; reflexivity | split; reflexivity]. Qed.

(** C8, as stated, fails: the title is copied without a check.  An empty
    caller title with an inline synopsis gives a record whose title is
    empty, and a Bangumi subject without names gives a record whose title
    is absent. *)
Lemma title_can_be_empty :
  (exists r,
      fetchDetail same_ToString same_ToNumber
                  (props_of [] None None None (Some sample_cms)) offline
      = (Resolved r, [])
      /\ DetailData.title r = JStr []
      /\ truthy (DetailData.title r) = false)
  /\ (exists r,
         fetchDetail same_ToString same_ToNumber
                     (props_of (js "T") None (Some 5%Q) None None)
                     (fun _ => answer (JObj []))
         = (Resolved r, [BangumiSubject (JNum 5)])
         /\ DetailData.title r = JUndef).
Proof.
  split; eexists; (split; [vm_compute; reflexivity |]); auto.
Qed.

(** C8, amended. The title of every record produced by a successful
    resolution is copied from its source without a check: the caller's
    title in branch 1; the title of the source detail, or else the caller's
    title, in branch 2; [name_cn], or else [name], in branch 3; [title] in
    branch 4; [title] for a movie and [name] otherwise in branch 5.  In
    branches 1 and 2 it is non-empty whenever the caller's title is.  Every
    other field may be absent. *)
Theorem title_is_copied_from_its_source
        (TS : jsval -> jstring) (TN : jsval -> option Q) :
  (forall P W r,
      fst (fetchDetail TS TN P W) = Resolved r -> title_source TS TN P W r)
  /\ (forall P W r,
         fst (fetchDetail TS TN P W) = Resolved r ->
         snd (fetchDetail TS TN P W) = []
         \/ snd (fetchDetail TS TN P W) = [source_detail_request P] ->
         title P <> [] ->
         truthy (DetailData.title r) = true)
  /\ fetchDetail TS TN (props_of (js "T") (Some 7%Q) None None None)
                 (fun _ => answer (JObj [(js "title", JStr (js "X"))]))
     = (Resolved (DetailData.only_title (JStr (js "X"))),
        [DoubanDetail (JNum 7)]).
Proof.
  split; [| split].
  - intros P W r. apply resolved_title_source.
  - intros P W r. apply cms_title_is_truthy.
  - vm_compute. reflexivity.
Qed.


(** The other two patterns, on samples. *)
Example season_word_sample :
  strip_season (js "Foo Season 3") JUndef = (js "Foo", JNum 3)
  /\ strip_season (js "Sherlock s02") JUndef = (js "Sherlock", JNum 2)
  /\ strip_season (js "第0季") JUndef = ([], JUndef)
  /\ strip_season (js "剑王朝第二季") (JNum 4) = (js "剑王朝", JNum 4).
Proof. repeat split. Qed.


(** A refused source detail is followed by the Bangumi lookup, which
    succeeds; a refused Bangumi lookup ends the run. *)
Example fall_through_sample :
  (exists r,
      fetchDetail same_ToString same_ToNumber
                  (props_with_source (js "T") (Some 5%Q)) bangumi_only
      = (Resolved r,
         [SourceDetail (js "12") (js "cms") (js "T");
          BangumiSubject (JNum 5)])
      /\ DetailData.title r = JStr (js "N"))
  /\ fetchDetail same_ToString same_ToNumber
                 (props_with_source (js "T") (Some 5%Q)) (fun _ => refuse)
     = (Failed (Thrown (js "获取Bangumi详情失败")),
        [SourceDetail (js "12") (js "cms") (js "T");
         BangumiSubject (JNum 5)]).
Proof.
  split; [eexists; split; [vm_compute; reflexivity | reflexivity] |].
  vm_compute. reflexivity.
Qed.

End DetailPanelFacts.

(** * More properties of the playback resolver *)

Module OpenListPlayExtra.

Import Eff OpenListPlay OpenListPaths OpenListPlayFacts.
Local Open Scope string_scope.
Local Open Scope Z_scope.

Lemma authorized_missing_param env req :
  authorized env req ->
  truthy_opt (folder req) = false \/ truthy_opt (fileName req) = false ->
  GET env req = (Json 400 "缺少参数" None, []).
Proof.
  intros Ha Hm. unfold GET, GET_body. rewrite (authorized_gate Ha).
  destruct Hm as [-> | ->]; simpl; [| rewrite orb_true_r]; reflexivity.
Qed.

Lemma upstream_case_status env req g :
  upstream_case env req g -> status_of (fst g) <> 401.
Proof.
  intros [e He | cfg Hcfg Hno | cfg oc r Hcfg Hoc path ev answer Hr]; simpl;
    try discriminate.
  subst answer.
  destruct (getFile env (URL oc) (Username oc) (Password oc) path)
    as [e | resp]; [subst r; discriminate |].
  destruct (code resp =? 200); [| subst r; discriminate].
  destruct (data resp) as [d|]; [| subst r; discriminate].
  destruct (raw_url d) as [[|c w]|]; subst r; discriminate.
Qed.

(** X1. The answer is 401 exactly when the request is not authorized:
    either authorization alone is enough to pass, and an empty configured
    token authorizes nobody. *)
Theorem status_401_iff_unauthorized (env : Env) (req : Request) :
  status_of (fst (GET env req)) = 401 <-> ~ authorized env req.
Proof.
  split.
  - intros H Ha.
    destruct (gates_dec env req) as [(_ & Hf & Hn) | [Hna | Hm]].
    + apply (upstream_case_status (GET_cases Ha Hf Hn)). exact H.
    + contradiction.
    + rewrite (authorized_missing_param Ha Hm) in H. discriminate.
  - intros Hna. unfold GET, GET_body.
    now rewrite (unauthorized_gate Hna).
Qed.

(** The session alone passes the first gate; an empty configured token does
    not, even for an empty path token. *)
Example session_alone_passes :
  GET (sample_env good_file) (with_session (Some "A") (Some "b.mp4"))
  = (Redirect "http://cdn/b.mp4",
     [LoadConfig; GetFile "http://list" "u" "p" "/x/A/b.mp4"])
  /\ status_of
       (fst (GET {| TVBOX_SUBSCRIBE_TOKEN := Some "";
                    getConfig := inl (Thrown "unused");
                    getFile := fun _ _ _ _ => good_file |}
                 {| token := ""; folder := Some "A";
                    fileName := Some "b.mp4"; authInfo := None |})) = 401.
Proof. split; reflexivity. Qed.

(** X2. For an authorized request with both parameters, a backend that is
    missing, disabled, or without URL, user name or password is answered
    400 after the configuration was loaded, and the listing service is not
    called. *)
Theorem misconfigured_is_400 (env : Env) (req : Request) (cfg : AdminConfig) :
  authorized env req ->
  truthy_opt (folder req) = true ->
  truthy_opt (fileName req) = true ->
  getConfig env = inr cfg ->
  (OpenListConfig_ cfg = None
   \/ exists oc, OpenListConfig_ cfg = Some oc
                 /\ (Enabled oc = false \/ URL oc = "" \/ Username oc = ""
                     \/ Password oc = "")) ->
  GET env req = (Json 400 "OpenList 未配置或未启用" None, [LoadConfig]).
Proof.
  intros Ha Hf Hn Hcfg Hbad.
  unfold GET, GET_body.
  rewrite (authorized_gate Ha), Hf, Hn, Hcfg. simpl.
  destruct Hbad as [-> | (oc & -> & Hoc)]; [reflexivity |].
  destruct Hoc as [-> | [-> | [-> | ->]]]; simpl;
    rewrite ?orb_true_r; reflexivity.
Qed.

Lemma misconfigured_is_400_witness :
  GET disabled_env (with_token (Some "A") (Some "b.mp4"))
  = (Json 400 "OpenList 未配置或未启用" None, [LoadConfig]).
Proof.
  eapply misconfigured_is_400.
  - left. simpl. split; [reflexivity | discriminate].
  - reflexivity.
  - reflexivity.
  - reflexivity.
  - right. eexists. split; [reflexivity |]. left. reflexivity.
Defined.


Lemma ready_gate_inv oc :
  negb (Enabled oc) || negb (truthy (URL oc))
  || negb (truthy (Username oc)) || negb (truthy (Password oc)) = false ->
  ready oc.
Proof.
  rewrite !orb_false_iff, !negb_false_iff.
  intros (((He & Hu) & Hn) & Hp).
  apply truthy_iff in Hu, Hn, Hp. repeat split; auto.
Qed.



(** A failing call to the listing service, and an answer without data. *)
Example listing_failures :
  GET (sample_env (inl (Thrown "timeout")))
      (with_token (Some "A") (Some "b.mp4"))
  = (Json 500 "获取失败" (Some (Thrown "timeout")),
     [LoadConfig; GetFile "http://list" "u" "p" "/x/A/b.mp4"])
  /\ GET (sample_env (inr {| code := 200; message := "ok"; data := None |}))
         (with_token (Some "A") (Some "b.mp4"))
     = (Json 500 "获取失败" (Some EngineTypeError),
        [LoadConfig; GetFile "http://list" "u" "p" "/x/A/b.mp4"]).
Proof. split; reflexivity. Qed.

(** X4. The listing service is called at most once, only for an authorized
    request with both parameters and a ready backend, with the URL and the
    credentials of the configuration, and for the path built from the root
    path, the folder and the file name. *)
Theorem listing_call_origin (env : Env) (req : Request)
        (url user pass path : string) :
  In (GetFile url user pass path) (snd (GET env req)) ->
  authorized env req
  /\ snd (GET env req) = [LoadConfig; GetFile url user pass path]
  /\ exists cfg oc f n,
      getConfig env = inr cfg /\ OpenListConfig_ cfg = Some oc /\ ready oc
      /\ folder req = Some f /\ f <> "" /\ fileName req = Some n /\ n <> ""
      /\ url = URL oc /\ user = Username oc /\ pass = Password oc
      /\ path = filePath (rootPath_of oc) f n.
Proof.
  intros Hin.
  destruct (gates_dec env req) as [(Ha & Hf & Hn) | Hearly].
  2:{ destruct (GET_early Hearly) as [Htr _]. rewrite Htr in Hin.
      destruct Hin. }
  split; [exact Ha |].
  apply truthy_opt_iff in Hf, Hn.
  destruct Hf as (f & Hf & Hfne). destruct Hn as (n & Hn & Hnne).
  revert Hin. unfold GET, GET_body.
  rewrite (authorized_gate Ha), Hf, Hn.
  replace (negb (truthy_opt (Some f)) || negb (truthy_opt (Some n)))
    with false
    by (simpl; apply truthy_iff in Hfne, Hnne; now rewrite Hfne, Hnne).
  destruct (getConfig env) as [e | cfg]; simpl.
  { intros [[=] | []]. }
  destruct (OpenListConfig_ cfg) as [oc|] eqn:Hoc; simpl.
  2:{ intros [[=] | []]. }
  destruct (negb (Enabled oc) || negb (truthy (URL oc))
            || negb (truthy (Username oc)) || negb (truthy (Password oc)))
    eqn:Hready; simpl.
  { intros [[=] | []]. }
  apply ready_gate_inv in Hready.
  set (p := filePath (rootPath_of oc) f n).
  destruct (getFile env (URL oc) (Username oc) (Password oc) p)
    as [e | resp]; simpl.
  - intros [[=] | [[= <- <- <- <-] | []]].
    split; [reflexivity |]. exists cfg, oc, f, n. repeat split; auto; apply Hready.
  - destruct (negb (code resp =? 200)); simpl.
    + intros [[=] | [[= <- <- <- <-] | []]].
      split; [reflexivity |]. exists cfg, oc, f, n. repeat split; auto; apply Hready.
    + destruct (data resp) as [d|]; simpl.
      * destruct (negb (truthy_opt (raw_url d))); simpl;
          intros [[=] | [[= <- <- <- <-] | []]];
          (split; [reflexivity |]; exists cfg, oc, f, n;
           repeat split; auto; apply Hready).
      * intros [[=] | [[= <- <- <- <-] | []]].
        split; [reflexivity |]. exists cfg, oc, f, n.
        repeat split; auto; apply Hready.
Qed.

Lemma listing_call_origin_witness :
  authorized (sample_env bad_file) (with_session (Some "A") (Some "b.mp4"))
  /\ snd (GET (sample_env bad_file)
              (with_session (Some "A") (Some "b.mp4")))
     = [LoadConfig; GetFile "http://list" "u" "p" "/x/A/b.mp4"]
  /\ exists cfg oc f n,
      getConfig (sample_env bad_file) = inr cfg
      /\ OpenListConfig_ cfg = Some oc /\ ready oc
      /\ folder (with_session (Some "A") (Some "b.mp4")) = Some f
      /\ f <> ""
      /\ fileName (with_session (Some "A") (Some "b.mp4")) = Some n
      /\ n <> ""
      /\ "http://list" = URL oc /\ "u" = Username oc /\ "p" = Password oc
      /\ "/x/A/b.mp4" = filePath (rootPath_of oc) f n.
Proof.
  apply (@listing_call_origin
           (sample_env bad_file) (with_session (Some "A") (Some "b.mp4"))
           "http://list" "u" "p" "/x/A/b.mp4").
  simpl. right. left. reflexivity.
Defined.

(** *** Distinct files, distinct paths *)

Lemma app_inv_head_str (a b c : string) : a ++ b = a ++ c -> b = c.
Proof.
  induction a as [|x a IH]; simpl; [auto |].
  intros [= H]. auto.
Qed.

Lemma split_at_first_slash (f f' n n' : string) :
  contains_slash f = false -> contains_slash f' = false ->
  f ++ "/" ++ n = f' ++ "/" ++ n' -> f = f' /\ n = n'.
Proof.
  revert f'. induction f as [|c f IH]; intros f' Hf Hf' E.
  - destruct f' as [|c' f']; simpl in E.
    + injection E as <-. auto.
    + injection E as <- _. simpl in Hf'. discriminate.
  - destruct f' as [|c' f']; simpl in E.
    + injection E as -> _. simpl in Hf. discriminate.
    + injection E as <- E.
      simpl in Hf, Hf'. apply orb_false_iff in Hf, Hf'.
      destruct (IH f' (proj2 Hf) (proj2 Hf') E) as [-> ->]. auto.
Qed.

(** X5. Under one root path, two requests whose folder names hold no slash
    are given the same remote path only when they name the same folder and
    the same file. *)
Theorem filePath_injective (root f f' n n' : string) :
  contains_slash f = false -> contains_slash f' = false ->
  filePath root f n = filePath root f' n' ->
  f = f' /\ n = n'.
Proof.
  intros Hf Hf' E. unfold filePath, folderPath in E.
  rewrite !app_assoc_str in E.
  apply app_inv_head_str in E. apply app_inv_head_str in E.
  now apply split_at_first_slash.
Qed.

Lemma filePath_injective_witness : "A" = "A" /\ "b.mp4" = "b.mp4".
Proof.
  apply (@filePath_injective "/x/" "A" "A" "b.mp4" "b.mp4");
    reflexivity.
Defined.

(** Without the condition the paths collide. *)
Example filePath_collision :
  filePath "/x/" "A/B" "c.mp4" = filePath "/x/" "A" "B/c.mp4".
Proof. reflexivity. Qed.

End OpenListPlayExtra.

(** * More properties of the detail cascade *)

Module DetailPanelExtra.

Import Eff DetailPanel DetailPanelCases DetailPanelFacts.

#[local] Arguments js : simpl never.

(** *** Titles without a season marker *)

Lemma search_fails_at_first_atom (p : N -> bool) (r : regex)
      (s acc : jstring) :
  forallb (fun c => negb (p c)) s = true ->
  search (Seq (Atom p) r) acc s = None.
Proof.
  revert acc. induction s as [|c s IH]; intros acc H; [reflexivity |].
  simpl in H. apply andb_true_iff in H. destruct H as [Hc Hs].
  apply negb_true_iff in Hc.
  cbn [search]. unfold match_at at 1. cbn [exec]. rewrite Hc.
  now apply IH.
Qed.

Lemma not_in_forallb (x : N) (s : jstring) (p : N -> bool) :
  (forall c, p c = true -> c = x) -> ~ In x s ->
  forallb (fun c => negb (p c)) s = true.
Proof.
  intros Hp Hnot. apply forallb_forall. intros c Hc.
  apply negb_true_iff. destruct (p c) eqn:E; [| reflexivity].
  apply Hp in E. subst c. contradiction.
Qed.

Lemma letter_s_forallb (s : jstring) :
  ~ In 83%N s -> ~ In 115%N s ->
  forallb (fun c => negb (letter_i 83 c)) s = true.
Proof.
  intros Hu Hl. apply forallb_forall. intros c Hc.
  apply negb_true_iff. unfold letter_i. cbn.
  apply orb_false_iff. split; apply N.eqb_neq; intros ->; contradiction.
Qed.

(** X15. A title that holds neither [第] nor the letter S in either case
    matches none of the season patterns: it is searched as it is, not even
    trimmed, and the season number stays the one supplied. *)
Theorem title_without_marker_is_kept (t : jstring) (sn : jsval) :
  ~ In c_di t -> ~ In 83%N t -> ~ In 115%N t ->
  first_match seasonPatterns t = None
  /\ strip_season t sn = (t, sn).
Proof.
  intros Hdi Hu Hl.
  assert (Hnone : first_match seasonPatterns t = None).
  { unfold seasonPatterns, first_match, str_match.
    unfold pattern_cjk at 1.
    rewrite search_fails_at_first_atom.
    2:{ apply not_in_forallb with c_di; auto.
        intros c Hc. now apply N.eqb_eq in Hc. }
    change pattern_season
      with (Seq (Atom (letter_i 83)) (Seq (Atom (letter_i 101))
           (Seq (Atom (letter_i 97)) (Seq (Atom (letter_i 115))
           (Seq (Atom (letter_i 111)) (Seq (Atom (letter_i 110))
           (Seq (Rep 0 is_space) (Group (Rep 1 is_digit))))))))).
    rewrite search_fails_at_first_atom by now apply letter_s_forallb.
    change pattern_s
      with (Seq (Atom (letter_i 83)) (Group (Rep 1 is_digit))).
    now rewrite search_fails_at_first_atom by now apply letter_s_forallb. }
  split; [exact Hnone |].
  unfold strip_season. now rewrite strip_season_loop_first_match, Hnone.
Qed.

Lemma title_without_marker_is_kept_witness :
  first_match seasonPatterns (js " 剑王朝 ") = None
  /\ strip_season (js " 剑王朝 ") (JNum 3) = (js " 剑王朝 ", JNum 3).
Proof.
  apply title_without_marker_is_kept; vm_compute; intuition discriminate.
Defined.

Section Runs.

Variable TS : jsval -> jstring.
Variable TN : jsval -> option Q.
Variable P : Props.
Variable W : World.

Lemma tmdb_steps_case : tmdb_case TS TN P W (tmdb_steps TS TN P W).
Proof.
  unfold tmdb_steps, fetch, call, bind, lift, throw.
  fold (search_request P).
  destruct (W (search_request P)) as [e | sresp] eqn:HS; simpl.
  { apply tmdb_search_failed. now left. }
  destruct (ok sresp) eqn:Hok; simpl.
  2:{ apply tmdb_search_failed. right. exists sresp. auto. }
  destruct (json sresp) as [e | sd] eqn:Hj; simpl.
  { apply tmdb_search_failed. right. exists sresp. auto. }
  unfold read at 1.
  destruct (nullish sd) eqn:Hnull; simpl.
  { apply tmdb_search_failed. right. exists sresp. split; auto.
    right. right. repeat split; auto. exists sd. auto. }
  assert (Hans : search_answer P W sd) by (exists sresp; auto).
  fold (has_results TN sd).
  destruct (has_results TN sd) eqn:Hres; simpl.
  2:{ now apply tmdb_not_found with sd. }
  fold (first_result sd). unfold read.
  destruct (nullish (first_result sd)) eqn:Hfirst; simpl.
  { now apply tmdb_result_unreadable with sd. }
  fold (media_type_of P (first_result sd)). fold (detail_request P sd).
  destruct (W (detail_request P sd)) as [e | dresp] eqn:HD; simpl.
  { apply tmdb_detail_failed; auto. now left. }
  destruct (ok dresp) eqn:Hdok; simpl.
  2:{ apply tmdb_detail_failed; auto. right. exists dresp. auto. }
  destruct (json dresp) as [e | detail] eqn:Hdj; simpl.
  { apply tmdb_detail_failed; auto. right. exists dresp. auto. }
  assert (Hdet : detail_answer TN P W sd detail).
  { repeat split; auto. exists dresp. auto. }
  unfold season_steps, fetch, call, try_catch, bind, lift, ret.
  fold (season_number P). fold (wants_season P sd).
  destruct (wants_season P sd) eqn:Hw.
  2:{ simpl. now apply tmdb_built. }
  fold (season_request P sd).
  match goal with
  | |- tmdb_case _ _ _ _ ?x =>
    replace x
      with (tmdb_record TS P (media_type_of P (first_result sd)) detail
                        (season_data (W (season_request P sd))),
            [search_request P; detail_request P sd; season_request P sd])
  end.
  { now apply tmdb_built_with_season. }
  unfold season_data.
  destruct (W (season_request P sd)) as [e | resp]; simpl; [reflexivity |].
  destruct (ok resp); simpl; [| reflexivity].
  destruct (json resp); reflexivity.
Qed.

(** A run either ends in steps 1 and 2, or goes on with steps 3 to 5. *)
Lemma run_cases :
  exists t0,
    (t0 = [] \/ t0 = [source_detail_request P])
    /\ ((exists d, cms_steps P W = (inr (Some d), t0)
                   /\ fetchDetail TS TN P W = (Resolved d, t0))
        \/ (cms_steps P W = (inr None, t0)
            /\ fetchDetail TS TN P W
               = (outcome_of (fst (id_steps TS TN P W)),
                  t0 ++ snd (id_steps TS TN P W)))).
Proof.
  rewrite fetchDetail_unfold.
  destruct (cms_steps_shape P W) as (r & t0 & E & Ht0). rewrite E.
  exists t0. split; [exact Ht0 |].
  destruct r as [d|]; [left; eauto | right; auto].
Qed.

Lemma tmdb_steps_one_provider : one_provider (snd (tmdb_steps TS TN P W)).
Proof.
  pose proof tmdb_steps_case as Hc.
  remember (tmdb_steps TS TN P W) as g eqn:Eg. clear Eg.
  destruct Hc; simpl;
    unfold one_provider, search_request, detail_request, season_request;
    do 3 right.
  1-3: left; eauto.
  - right. left. eauto.
  - right. left. eauto.
  - right. right. eauto 6.
Qed.

Lemma id_steps_one_provider : one_provider (snd (id_steps TS TN P W)).
Proof.
  rewrite id_steps_cases.
  destruct (bangumi_applies P).
  { rewrite bangumi_steps_trace. right. left. eauto. }
  destruct (douban_applies P).
  { rewrite douban_steps_trace. right. right. left. eauto. }
  destruct (truthy (JStr (title P))).
  - apply tmdb_steps_one_provider.
  - now left.
Qed.

Lemma one_provider_length t : one_provider t -> (length t <= 3)%nat.
Proof.
  intros [-> | [(? & ->) | [(? & ->) | [(? & ->) | [(? & ? & ? & ->)
         | (? & ? & ? & ? & ->)]]]]]; simpl; lia.
Qed.

(** X6. The requests of a run are: at most the source-detail request, then
    requests to a single provider, which are one Bangumi lookup, or one
    Douban lookup, or a TMDB search, its detail and its season in this
    order; a run makes at most four requests. *)
Theorem requests_go_to_one_provider :
  exists t0 t1,
    snd (fetchDetail TS TN P W) = t0 ++ t1
    /\ (t0 = [] \/ t0 = [source_detail_request P])
    /\ one_provider t1
    /\ (length (snd (fetchDetail TS TN P W)) <= 4)%nat.
Proof.
  destruct run_cases as (t0 & Ht0 & [(d & _ & E) | (_ & E)]); rewrite E;
    simpl.
  - exists t0, []. rewrite app_nil_r. repeat split; auto.
    + now left.
    + destruct Ht0 as [-> | ->]; simpl; lia.
  - exists t0, (snd (id_steps TS TN P W)).
    pose proof id_steps_one_provider as H1.
    repeat split; auto.
    rewrite length_app. apply one_provider_length in H1.
    destruct Ht0 as [-> | ->]; simpl; lia.
Qed.

Lemma falsy_num (o : option Q) :
  (forall q, o = Some q -> (q == 0)%Q) -> truthy (of_num_opt o) = false.
Proof.
  destruct o as [q|]; simpl; [| reflexivity].
  intros H. apply negb_false_iff, Qeq_bool_iff. now apply H.
Qed.

(** X7. With no inline data, no Bangumi id, no Douban id and an empty
    title, the run fails at once with the message for missing parameters,
    and nothing is requested. *)
Theorem nothing_to_look_up :
  cmsData P = None ->
  (forall b, bangumiId P = Some b -> (b == 0)%Q) ->
  (forall d, doubanId P = Some d -> (d == 0)%Q) ->
  title P = [] ->
  fetchDetail TS TN P W = (Failed (Thrown (js "缺少必要的查询参数")), []).
Proof.
  intros Hc Hb Hd Ht.
  rewrite fetchDetail_unfold. unfold cms_steps. rewrite Hc.
  cbn [Eff.ret app]. rewrite id_steps_cases.
  unfold bangumi_applies, douban_applies.
  rewrite (falsy_num Hb), (falsy_num Hd), Ht. simpl.
  now rewrite andb_false_r.
Qed.

(** *** The TMDB branch inside a run *)

Lemma tmdb_run (q : Request) :
  In q (snd (fetchDetail TS TN P W)) -> is_tmdb q = true ->
  exists t0,
    (t0 = [] \/ t0 = [source_detail_request P])
    /\ fetchDetail TS TN P W
       = (outcome_of (fst (tmdb_steps TS TN P W)),
          t0 ++ snd (tmdb_steps TS TN P W))
    /\ In q (snd (tmdb_steps TS TN P W)).
Proof.
  intros Hin Hq.
  destruct (@later_request_origin TS TN P W q Hin)
    as (t0 & _ & Hrun & Ht0 & Hin').
  { intros ->. discriminate. }
  pose proof (@tmdb_request_origin TS TN P W q Hin' Hq) as E.
  rewrite E in Hrun, Hin'. eauto.
Qed.

Lemma search_in_trace (q : jstring) :
  In (TmdbSearch q) (snd (tmdb_steps TS TN P W)) ->
  TmdbSearch q = search_request P.
Proof.
  pose proof tmdb_steps_case as Hc.
  remember (tmdb_steps TS TN P W) as g eqn:Eg. clear Eg.
  destruct Hc; simpl; unfold detail_request, season_request;
    intuition congruence.
Qed.

Lemma detail_in_trace (id mt : jsval) :
  In (TmdbDetail id mt) (snd (tmdb_steps TS TN P W)) ->
  exists sd,
    search_answer P W sd /\ has_results TN sd = true
    /\ nullish (first_result sd) = false
    /\ TmdbDetail id mt = detail_request P sd.
Proof.
  pose proof tmdb_steps_case as Hc.
  remember (tmdb_steps TS TN P W) as g eqn:Eg. clear Eg.
  destruct Hc as [e H | sd H1 H2 | sd H1 H2 H3 | sd e H1 H2 H3 H4
                 | sd detail H1 H2 | sd detail H1 H2]; simpl;
    unfold search_request, season_request;
    try (intuition congruence).
  - intros [[=] | [E | []]]. exists sd. repeat split; auto.
  - intros [[=] | [E | []]]. exists sd.
    destruct H1 as (Ha & Hr & Hf & _). repeat split; auto.
  - intros [[=] | [E | [[=] | []]]]. exists sd.
    destruct H1 as (Ha & Hr & Hf & _). repeat split; auto.
Qed.

Lemma season_in_trace (id s : jsval) :
  In (TmdbSeason id s) (snd (tmdb_steps TS TN P W)) ->
  exists sd detail,
    detail_answer TN P W sd detail /\ wants_season P sd = true
    /\ TmdbSeason id s = season_request P sd
    /\ In (detail_request P sd) (snd (tmdb_steps TS TN P W))
    /\ fst (tmdb_steps TS TN P W)
       = tmdb_record TS P (media_type_of P (first_result sd)) detail
                     (season_data (W (season_request P sd))).
Proof.
  pose proof tmdb_steps_case as Hc.
  remember (tmdb_steps TS TN P W) as g eqn:Eg. clear Eg.
  destruct Hc as [e H | sd H1 H2 | sd H1 H2 H3 | sd e H1 H2 H3 H4
                 | sd detail H1 H2 | sd detail H1 H2]; simpl;
    unfold search_request, detail_request;
    try (intuition congruence).
  intros [[=] | [[=] | [E | []]]]. exists sd, detail.
  split; [exact H1 |]. split; [exact H2 |]. split; [now symmetry |].
  split; [| reflexivity]. right. now left.
Qed.

Lemma search_answer_unique (resp : Response) (sd sd' : jsval) :
  W (search_request P) = inr resp -> json resp = inr sd ->
  search_answer P W sd' -> sd' = sd.
Proof.
  intros HW Hj (resp' & HW' & _ & Hj' & _). congruence.
Qed.

(** X8. When the TMDB search is answered with a readable body that holds
    no result, the run fails with the message for nothing found, and no
    detail is requested. *)
Theorem empty_search_is_not_found (q : jstring) (resp : Response)
        (sd : jsval) :
  In (TmdbSearch q) (snd (fetchDetail TS TN P W)) ->
  W (TmdbSearch q) = inr resp -> ok resp = true -> json resp = inr sd ->
  nullish sd = false ->
  has_results TN sd = false ->
  fst (fetchDetail TS TN P W) = Failed (Thrown (js "未找到相关内容"))
  /\ forallb (fun r => match r with
                       | TmdbDetail _ _ | TmdbSeason _ _ => false
                       | _ => true
                       end) (snd (fetchDetail TS TN P W)) = true.
Proof.
  intros Hin HW Hok Hj Hnull Hres.
  destruct (tmdb_run _ Hin eq_refl) as (t0 & Ht0 & -> & Hin').
  rewrite (search_in_trace _ Hin') in HW.
  pose proof tmdb_steps_case as Hc.
  remember (tmdb_steps TS TN P W) as g eqn:Eg. clear Eg Hin Hin'.
  assert (Hsame : forall sd', search_answer P W sd' -> sd' = sd)
    by (intros sd'; now apply search_answer_unique with resp).
  destruct Hc as [e H | sd' H1 H2 | sd' H1 H2 H3 | sd' e H1 H2 H3 H4
                 | sd' detail H1 H2 | sd' detail H1 H2]; simpl.
  - exfalso.
    destruct H as [H | (resp' & H & [[H1 _] | [[_ H1] | (_ & _ & v & H1 & H2)]])];
      congruence.
  - split; [reflexivity |].
    rewrite forallb_app. simpl.
    destruct Ht0 as [-> | ->]; reflexivity.
  - rewrite (Hsame _ H1) in H2. congruence.
  - rewrite (Hsame _ H1) in H2. congruence.
  - destruct H1 as (Ha & Hr & _). rewrite (Hsame _ Ha) in Hr. congruence.
  - destruct H1 as (Ha & Hr & _). rewrite (Hsame _ Ha) in Hr. congruence.
Qed.

Lemma search_answer_functional (sd sd' : jsval) :
  search_answer P W sd -> search_answer P W sd' -> sd = sd'.
Proof.
  intros (r & HW & _ & Hj & _) (r' & HW' & _ & Hj' & _). congruence.
Qed.

(** X9. The detail request of the TMDB branch is for the first result of
    the search: its id is the id of that result, and its type is the media
    type of that result, or else the type given by the caller (['movie']
    when none is given). *)
Theorem detail_is_for_first_result (id mt : jsval) :
  In (TmdbDetail id mt) (snd (fetchDetail TS TN P W)) ->
  exists resp sd,
    W (search_request P) = inr resp /\ json resp = inr sd
    /\ In (search_request P) (snd (fetchDetail TS TN P W))
    /\ id = prop (first_result sd) (js "id")
    /\ mt = or (prop (first_result sd) (js "media_type"))
               (JStr (media_str (type_of P)))
    /\ (forall r rest, prop sd (js "results") = JArr (r :: rest) ->
                       first_result sd = r).
Proof.
  intros Hin.
  destruct (tmdb_run _ Hin eq_refl) as (t0 & Ht0 & -> & Hin').
  destruct (detail_in_trace _ _ Hin')
    as (sd & (resp & HW & _ & Hj & _) & _ & _ & [= -> ->]).
  exists resp, sd. repeat split; auto.
  - simpl. apply in_or_app. right.
    pose proof tmdb_steps_case as Hc.
    remember (tmdb_steps TS TN P W) as g eqn:Eg. clear Eg Hin Hin'.
    destruct Hc; simpl; auto.
  - intros r rest E. unfold first_result. now rewrite E.
Qed.

Lemma explicit_season_is_kept (t : jstring) (sn : jsval) :
  truthy sn = true -> snd (strip_season t sn) = sn.
Proof.
  intros H. unfold strip_season.
  rewrite strip_season_loop_first_match.
  destruct (first_match seasonPatterns t); simpl; [now rewrite H | reflexivity].
Qed.

(** X10. A season request is made only with a season number that is
    neither absent nor zero and only for the media type ['tv'], after the
    detail request for the same id; the number is the one supplied by the
    caller when there is one, whatever the title says. *)
Theorem season_request_conditions (id s : jsval) :
  In (TmdbSeason id s) (snd (fetchDetail TS TN P W)) ->
  truthy s = true
  /\ s = snd (strip_season (title P) (of_num_opt (seasonNumber P)))
  /\ (forall n, seasonNumber P = Some n -> ~ (n == 0)%Q -> s = JNum n)
  /\ exists mt,
      In (TmdbDetail id mt) (snd (fetchDetail TS TN P W))
      /\ is_str mt (js "tv") = true.
Proof.
  intros Hin.
  destruct (tmdb_run _ Hin eq_refl) as (t0 & Ht0 & -> & Hin').
  destruct (season_in_trace _ _ Hin')
    as (sd & detail & Hd & Hw & [= -> ->] & Hdin & _).
  unfold wants_season in Hw. apply andb_true_iff in Hw.
  destruct Hw as [Hs Htv].
  split; [exact Hs |]. split; [reflexivity |]. split.
  - intros n Hn Hnz. unfold season_number. rewrite Hn.
    apply explicit_season_is_kept. now apply truthy_num.
  - exists (media_type_of P (first_result sd)). split; [| exact Htv].
    simpl. apply in_or_app. right. exact Hdin.
Qed.

Lemma tmdb_record_season_fields (mt detail sv : jsval) (r : DetailData.t) :
  tmdb_record TS P mt detail sv = inr r ->
  DetailData.intro r
  = or (opt sv (js "overview")) (prop detail (js "overview"))
  /\ DetailData.episodesCount r
     = or (opt (opt sv (js "episodes")) (js "length"))
          (prop detail (js "number_of_episodes"))
  /\ DetailData.overview r = prop detail (js "overview").
Proof.
  unfold tmdb_record, Eff.sbind.
  destruct (nullish detail); [discriminate |].
  destruct (opt_substring04 _); [discriminate |].
  do 3 (destruct (opt_map_name _ _); [discriminate |]).
  intros [= <-]. auto.
Qed.

(** X11. When the season request is answered and its body read, the
    record is built from the show detail and the season detail: its
    synopsis is the overview of the season, or that of the show when the
    season has none, and its episode count is the number of episodes of
    the season, or that of the show. *)
Theorem season_detail_is_preferred (id s : jsval) (resp : Response)
        (sv : jsval) :
  In (TmdbSeason id s) (snd (fetchDetail TS TN P W)) ->
  W (TmdbSeason id s) = inr resp -> ok resp = true -> json resp = inr sv ->
  exists mt dresp detail,
    In (TmdbDetail id mt) (snd (fetchDetail TS TN P W))
    /\ W (TmdbDetail id mt) = inr dresp /\ json dresp = inr detail
    /\ fst (fetchDetail TS TN P W)
       = outcome_of (tmdb_record TS P mt detail sv)
    /\ forall r,
        fst (fetchDetail TS TN P W) = Resolved r ->
        DetailData.intro r
        = or (opt sv (js "overview")) (prop detail (js "overview"))
        /\ DetailData.episodesCount r
           = or (opt (opt sv (js "episodes")) (js "length"))
                (prop detail (js "number_of_episodes"))
        /\ DetailData.overview r = prop detail (js "overview").
Proof.
  intros Hin HW Hok Hj.
  destruct (tmdb_run _ Hin eq_refl) as (t0 & Ht0 & -> & Hin').
  destruct (season_in_trace _ _ Hin')
    as (sd & detail & Hd & Hw & E & Hdin & Hres).
  rewrite <- E, HW in Hres. simpl in Hres. rewrite Hok, Hj in Hres.
  injection E as -> ->.
  destruct Hd as (_ & _ & _ & dresp & HD & _ & HDj).
  exists (media_type_of P (first_result sd)), dresp, detail.
  simpl. rewrite Hres.
  split; [apply in_or_app; right; exact Hdin |].
  repeat split; auto;
    destruct (tmdb_record TS P (media_type_of P (first_result sd)) detail sv)
      as [e | r'] eqn:Er; try discriminate;
    match goal with H : outcome_of _ = _ |- _ => injection H as <- end;
    now apply tmdb_record_season_fields in Er.
Qed.

(** *** The id branches *)

(** X12. The Douban endpoint is asked only when the flag is not set and no
    non-zero Bangumi id is supplied, and with the Douban id of the caller.
    With the flag set, a non-zero Douban id and no non-zero Bangumi id, the
    id is looked up at Bangumi instead, once steps 1 and 2 yield no
    record. *)
Theorem douban_id_routing :
  (forall id,
      In (DoubanDetail id) (snd (fetchDetail TS TN P W)) ->
      flag (isBangumi P) = false
      /\ (forall b, bangumiId P = Some b -> (b == 0)%Q)
      /\ exists d, doubanId P = Some d /\ ~ (d == 0)%Q /\ id = JNum d)
  /\ (forall d,
         fst (cms_steps P W) = inr None ->
         isBangumi P = Some true ->
         (forall b, bangumiId P = Some b -> (b == 0)%Q) ->
         doubanId P = Some d -> ~ (d == 0)%Q ->
         snd (fetchDetail TS TN P W)
         = snd (cms_steps P W) ++ [BangumiSubject (JNum d)]).
Proof.
  split.
  - intros id Hin.
    destruct (@later_request_origin TS TN P W _ Hin)
      as (t0 & _ & _ & _ & Hin'); [discriminate |].
    destruct (@douban_request_origin TS TN P W _ Hin') as (Hb & Hd & ->).
    unfold bangumi_applies in Hb. unfold douban_applies in Hd.
    apply orb_false_iff in Hb. apply andb_true_iff in Hd.
    destruct Hb as [Hb _]. destruct Hd as [Hd Hf].
    split; [now apply negb_true_iff in Hf |]. split.
    + intros b E. rewrite E in Hb. simpl in Hb.
      apply negb_false_iff in Hb. now apply Qeq_bool_iff.
    + destruct (doubanId P) as [d|]; [| discriminate].
      exists d. repeat split; auto. now apply truthy_num.
  - intros d Hcms Hflag Hb Hd Hnz.
    rewrite fetchDetail_unfold.
    destruct (cms_steps P W) as [r t0]. simpl in Hcms. subst r. simpl.
    rewrite id_steps_cases. unfold bangumi_applies.
    rewrite (falsy_num Hb), Hflag, Hd. simpl of_num_opt.
    apply truthy_num in Hnz. rewrite Hnz. cbn [flag orb andb].
    rewrite bangumi_steps_trace. unfold or.
    now rewrite (falsy_num Hb), Hd.
Qed.

Lemma bangumi_built (r : DetailData.t) :
  fst (bangumi_steps P W) = inr r ->
  exists resp data,
    W (BangumiSubject
         (or (of_num_opt (bangumiId P)) (of_num_opt (doubanId P))))
    = inr resp
    /\ ok resp = true /\ json resp = inr data
    /\ bangumi_record P data = inr r.
Proof.
  unfold bangumi_steps, fetch, Eff.call, Eff.bind, Eff.lift, Eff.throw.
  destruct (W _) as [e | resp] eqn:HW; simpl; [discriminate |].
  destruct (ok resp) eqn:Hok; simpl; [| discriminate].
  destruct (json resp) as [e | data] eqn:Hj; simpl; [discriminate |].
  intros H. exists resp, data. auto.
Qed.

Lemma opt_map_name_firstn (n : nat) (v g : jsval) :
  opt_map_name (firstn n) v = inr g ->
  g = JUndef \/ exists l, g = JArr l /\ (length l <= n)%nat.
Proof.
  unfold opt_map_name.
  destruct (nullish v); [intros [= <-]; now left |].
  destruct v; try discriminate.
  destruct (names_of l) as [e | ns]; [discriminate |].
  intros [= <-]. right. exists (firstn n ns). split; auto.
  apply firstn_le_length.
Qed.

(** X13. A record resolved through Bangumi maps the rating of the subject,
    [{score, total}], to [{value, count}], or has no rating when the
    subject has none; its genres are absent or at most five; its year is
    absent or the first four characters of the date, which is its release
    date. *)
Theorem bangumi_record_mapping (id : jsval) (r : DetailData.t) :
  In (BangumiSubject id) (snd (fetchDetail TS TN P W)) ->
  fst (fetchDetail TS TN P W) = Resolved r ->
  exists resp data,
    W (BangumiSubject id) = inr resp /\ json resp = inr data
    /\ DetailData.rating r
       = (if truthy (prop data (js "rating"))
          then JObj [ (js "value", prop (prop data (js "rating")) (js "score"));
                      (js "count", prop (prop data (js "rating")) (js "total")) ]
          else JUndef)
    /\ (DetailData.genres r = JUndef
        \/ exists l, DetailData.genres r = JArr l /\ (length l <= 5)%nat)
    /\ DetailData.releaseDate r = prop data (js "date")
    /\ ((truthy (prop data (js "date")) = false
         /\ DetailData.year r = JUndef)
        \/ exists d, prop data (js "date") = JStr d
                     /\ DetailData.year r = JStr (firstn 4 d)
                     /\ (length (firstn 4 d) <= 4)%nat).
Proof.
  intros Hin Hres.
  destruct (@later_request_origin TS TN P W _ Hin)
    as (t0 & _ & Hrun & _ & Hin'); [discriminate |].
  destruct (@bangumi_request_origin TS TN P W _ Hin') as [Happ ->].
  rewrite Hrun, id_steps_cases, Happ in Hres. simpl in Hres.
  destruct (fst (bangumi_steps P W)) as [e | r'] eqn:E; [discriminate |].
  injection Hres as ->.
  destruct (bangumi_built E) as (resp & data & HW & _ & Hj & Hrec).
  exists resp, data. split; [exact HW |]. split; [exact Hj |].
  revert Hrec. unfold bangumi_record, Eff.sbind.
  destruct (nullish data); [discriminate |].
  destruct (truthy (prop data (js "date"))) eqn:Hdate.
  - destruct (prop data (js "date")) as [| | | |d| |] eqn:Ed;
      try discriminate.
    cbn [substring04].
    destruct (opt_map_name (firstn 5) (prop data (js "tags")))
      as [e | g] eqn:Eg; [discriminate |].
    intros [= <-].
    cbn [DetailData.rating DetailData.genres DetailData.releaseDate
         DetailData.year].
    repeat split; auto.
    + now apply opt_map_name_firstn in Eg.
    + right. exists d. repeat split; auto. apply firstn_le_length.
  - destruct (opt_map_name (firstn 5) (prop data (js "tags")))
      as [e | g] eqn:Eg; [discriminate |].
    intros [= <-].
    cbn [DetailData.rating DetailData.genres DetailData.releaseDate
         DetailData.year].
    repeat split; auto.
    now apply opt_map_name_firstn in Eg.
Qed.

Lemma bangumi_failed (e : thrown) :
  W (BangumiSubject
       (or (of_num_opt (bangumiId P)) (of_num_opt (doubanId P)))) = inl e
  \/ (exists resp,
         W (BangumiSubject
              (or (of_num_opt (bangumiId P)) (of_num_opt (doubanId P))))
         = inr resp /\ ok resp = true /\ json resp = inl e) ->
  fst (bangumi_steps P W) = inl e.
Proof.
  unfold bangumi_steps, fetch, Eff.call, Eff.bind, Eff.lift, Eff.throw.
  intros [-> | (resp & -> & Hok & Hj)]; simpl; [reflexivity |].
  now rewrite Hok, Hj.
Qed.

Lemma douban_failed (e : thrown) :
  W (DoubanDetail (of_num_opt (doubanId P))) = inl e
  \/ (exists resp,
         W (DoubanDetail (of_num_opt (doubanId P))) = inr resp
         /\ ok resp = true /\ json resp = inl e) ->
  fst (douban_steps P W) = inl e.
Proof.
  unfold douban_steps, fetch, Eff.call, Eff.bind, Eff.lift, Eff.throw.
  intros [-> | (resp & -> & Hok & Hj)]; simpl; [reflexivity |].
  now rewrite Hok, Hj.
Qed.

Lemma tmdb_search_failed_with (e : thrown) :
  W (search_request P) = inl e
  \/ (exists resp, W (search_request P) = inr resp
                   /\ ok resp = true /\ json resp = inl e) ->
  tmdb_steps TS TN P W = (inl e, [search_request P]).
Proof.
  intros Hfail.
  pose proof tmdb_steps_case as Hc.
  remember (tmdb_steps TS TN P W) as g eqn:Eg. clear Eg.
  assert (Hno : forall sd, ~ search_answer P W sd).
  { intros sd (r & HW & Hok & Hj & _).
    destruct Hfail as [E | (r' & E & _ & Hj')]; congruence. }
  destruct Hc as [e' H | sd H1 H2 | sd H1 H2 H3 | sd e' H1 H2 H3 H4
                 | sd detail H1 H2 | sd detail H1 H2];
    try (exfalso; eapply Hno; first [exact H1 | apply H1]).
  f_equal. f_equal.
  destruct Hfail as [E | (r' & E & Hok' & Hj')];
    destruct H as [H | (r & H & [[H1 _] | [[_ H1] | (_ & _ & v & H1 & _)]])];
    congruence.
Qed.

Lemma tmdb_detail_failed_with (sd : jsval) (e : thrown) :
  search_answer P W sd -> has_results TN sd = true ->
  nullish (first_result sd) = false ->
  W (detail_request P sd) = inl e
  \/ (exists resp, W (detail_request P sd) = inr resp
                   /\ ok resp = true /\ json resp = inl e) ->
  tmdb_steps TS TN P W = (inl e, [search_request P; detail_request P sd]).
Proof.
  intros Ha Hr Hf Hfail.
  pose proof tmdb_steps_case as Hc.
  remember (tmdb_steps TS TN P W) as g eqn:Eg. clear Eg.
  assert (Hno : forall detail, ~ detail_answer TN P W sd detail).
  { intros detail (_ & _ & _ & r & HW & Hok & Hj).
    destruct Hfail as [E | (r' & E & _ & Hj')]; congruence. }
  destruct Hc as [e' H | sd' H1 H2 | sd' H1 H2 H3 | sd' e' H1 H2 H3 H4
                 | sd' detail H1 H2 | sd' detail H1 H2].
  - exfalso. destruct Ha as (r & HW & Hok & Hj & Hn).
    destruct H as [H | (r' & H & [[H1 _] | [[_ H1] | (_ & _ & v & H1 & H2)]])];
      congruence.
  - rewrite (search_answer_functional H1 Ha) in H2. congruence.
  - rewrite (search_answer_functional H1 Ha) in H3. congruence.
  - rewrite (search_answer_functional H1 Ha) in *. f_equal. f_equal.
    destruct Hfail as [E | (r' & E & Hok' & Hj')];
      destruct H4 as [H | (r & H & [[H5 _] | [_ H5]])]; congruence.
  - exfalso. destruct H1 as (Ha' & H1).
    rewrite (search_answer_functional Ha' Ha) in *.
    eapply Hno. split; eauto.
  - exfalso. destruct H1 as (Ha' & H1).
    rewrite (search_answer_functional Ha' Ha) in *.
    eapply Hno. split; eauto.
Qed.

(** X14. A request of steps 3 to 5 other than the season request that is
    rejected, or answered with a success status and a body that cannot be
    read, ends the run with exactly the error thrown, and is the last
    request of the run. *)
Theorem failed_request_ends_run (q : Request) (e : thrown) :
  In q (snd (fetchDetail TS TN P W)) ->
  is_terminal q = true ->
  W q = inl e
  \/ (exists resp, W q = inr resp /\ ok resp = true /\ json resp = inl e) ->
  fst (fetchDetail TS TN P W) = Failed e
  /\ exists t, snd (fetchDetail TS TN P W) = t ++ [q].
Proof.
  intros Hin Hterm Hfail.
  destruct q as [i s0 t | id | id | query | id mt | id s0];
    try discriminate.
  - destruct (@later_request_origin TS TN P W _ Hin)
      as (t0 & _ & -> & _ & Hin'); [discriminate |].
    destruct (@bangumi_request_origin TS TN P W _ Hin') as [Happ ->].
    rewrite id_steps_cases, Happ. simpl.
    rewrite (bangumi_failed Hfail), bangumi_steps_trace. eauto.
  - destruct (@later_request_origin TS TN P W _ Hin)
      as (t0 & _ & -> & _ & Hin'); [discriminate |].
    destruct (@douban_request_origin TS TN P W _ Hin') as (Hb & Happ & ->).
    rewrite id_steps_cases, Hb, Happ. simpl.
    rewrite (douban_failed Hfail), douban_steps_trace. eauto.
  - destruct (tmdb_run _ Hin eq_refl) as (t0 & Ht0 & -> & Hin').
    rewrite (search_in_trace _ Hin') in *.
    rewrite (tmdb_search_failed_with Hfail). simpl. eauto.
  - destruct (tmdb_run _ Hin eq_refl) as (t0 & Ht0 & -> & Hin').
    destruct (detail_in_trace _ _ Hin') as (sd & Ha & Hr & Hf & E).
    rewrite E in *.
    rewrite (tmdb_detail_failed_with Ha Hr Hf Hfail). simpl.
    split; [reflexivity |].
    exists (t0 ++ [search_request P]). now rewrite <- app_assoc.
Qed.


End Runs.

Lemma nothing_to_look_up_witness :
  fetchDetail same_ToString same_ToNumber
              (props_of [] (Some 0%Q) None (Some true) None) offline
  = (Failed (Thrown (js "缺少必要的查询参数")), []).
Proof.
  apply nothing_to_look_up.
  - reflexivity.
  - discriminate.
  - intros d [= <-]. reflexivity.
  - reflexivity.
Defined.

Lemma empty_search_is_not_found_witness :
  fst (fetchDetail same_ToString same_ToNumber
                   (props_of (js "Nothing") None None None None)
                   empty_search)
  = Failed (Thrown (js "未找到相关内容"))
  /\ forallb (fun r => match r with
                       | TmdbDetail _ _ | TmdbSeason _ _ => false
                       | _ => true
                       end)
             (snd (fetchDetail same_ToString same_ToNumber
                               (props_of (js "Nothing") None None None None)
                               empty_search)) = true.
Proof.
  apply (@empty_search_is_not_found
           same_ToString same_ToNumber
           (props_of (js "Nothing") None None None None) empty_search
           (js "Nothing")
           {| ok := true; json := inr (JObj [(js "results", JArr [])]) |}
           (JObj [(js "results", JArr [])])).
  - vm_compute. left. reflexivity.
  - reflexivity.
  - reflexivity.
  - reflexivity.
  - reflexivity.
  - reflexivity.
Defined.

Lemma detail_is_for_first_result_witness :
  exists resp sd,
    tmdb_world refuse
               (search_request (props_of (js "剑王朝第二季") None None None None))
    = inr resp
    /\ json resp = inr sd
    /\ In (search_request (props_of (js "剑王朝第二季") None None None None))
          (snd (fetchDetail same_ToString same_ToNumber
                            (props_of (js "剑王朝第二季") None None None None)
                            (tmdb_world refuse)))
    /\ JNum 42 = prop (first_result sd) (js "id")
    /\ JStr (js "tv")
       = or (prop (first_result sd) (js "media_type"))
            (JStr (media_str
                     (type_of (props_of (js "剑王朝第二季") None None None
                                        None))))
    /\ (forall r rest, prop sd (js "results") = JArr (r :: rest) ->
                       first_result sd = r).
Proof.
  apply (@detail_is_for_first_result
           same_ToString same_ToNumber
           (props_of (js "剑王朝第二季") None None None None)
           (tmdb_world refuse) (JNum 42) (JStr (js "tv"))).
  vm_compute. right. left. reflexivity.
Defined.

Lemma season_request_conditions_witness :
  truthy (JNum 2) = true
  /\ JNum 2
     = snd (strip_season
              (title (props_of (js "剑王朝第二季") None None None None))
              (of_num_opt
                 (seasonNumber (props_of (js "剑王朝第二季") None None None
                                         None))))
  /\ (forall n,
         seasonNumber (props_of (js "剑王朝第二季") None None None None)
         = Some n ->
         ~ (n == 0)%Q -> JNum 2 = JNum n)
  /\ exists mt,
      In (TmdbDetail (JNum 42) mt)
         (snd (fetchDetail same_ToString same_ToNumber
                           (props_of (js "剑王朝第二季") None None None None)
                           (tmdb_world refuse)))
      /\ is_str mt (js "tv") = true.
Proof.
  apply (@season_request_conditions
           same_ToString same_ToNumber
           (props_of (js "剑王朝第二季") None None None None)
           (tmdb_world refuse) (JNum 42) (JNum 2)).
  vm_compute. do 2 right. left. reflexivity.
Defined.

Lemma season_detail_is_preferred_witness :
  exists mt dresp detail,
    In (TmdbDetail (JNum 42) mt)
       (snd (fetchDetail same_ToString same_ToNumber
                         (props_of (js "剑王朝第二季") None None None None)
                         (tmdb_world (answer season_detail))))
    /\ tmdb_world (answer season_detail) (TmdbDetail (JNum 42) mt)
       = inr dresp
    /\ json dresp = inr detail
    /\ fst (fetchDetail same_ToString same_ToNumber
                        (props_of (js "剑王朝第二季") None None None None)
                        (tmdb_world (answer season_detail)))
       = outcome_of
           (tmdb_record same_ToString
                        (props_of (js "剑王朝第二季") None None None None)
                        mt detail season_detail)
    /\ forall r,
        fst (fetchDetail same_ToString same_ToNumber
                         (props_of (js "剑王朝第二季") None None None None)
                         (tmdb_world (answer season_detail))) = Resolved r ->
        DetailData.intro r
        = or (opt season_detail (js "overview")) (prop detail (js "overview"))
        /\ DetailData.episodesCount r
           = or (opt (opt season_detail (js "episodes")) (js "length"))
                (prop detail (js "number_of_episodes"))
        /\ DetailData.overview r = prop detail (js "overview").
Proof.
  apply (@season_detail_is_preferred
           same_ToString same_ToNumber
           (props_of (js "剑王朝第二季") None None None None)
           (tmdb_world (answer season_detail)) (JNum 42) (JNum 2)
           {| ok := true; json := inr season_detail |} season_detail).
  - vm_compute. do 2 right. left. reflexivity.
  - reflexivity.
  - reflexivity.
  - reflexivity.
Defined.

(** The same run, evaluated: the synopsis is the overview of the season,
    the episode count the number of its episodes, and the overview of the
    show is kept beside them. *)
Example season_detail_sample :
  exists r,
    fst (fetchDetail same_ToString same_ToNumber
                     (props_of (js "剑王朝第二季") None None None None)
                     (tmdb_world (answer season_detail)))
    = Resolved r
    /\ DetailData.intro r = JStr (js "season overview")
    /\ DetailData.episodesCount r = JNum 3
    /\ DetailData.overview r = JStr (js "show overview").
Proof. eexists. split; [vm_compute; reflexivity | repeat split]. Qed.

(** A flagged Douban id is looked up at Bangumi. *)
Lemma douban_id_routing_witness :
  snd (fetchDetail same_ToString same_ToNumber
                   (props_of (js "T") (Some 7%Q) None (Some true) None)
                   offline)
  = snd (cms_steps (props_of (js "T") (Some 7%Q) None (Some true) None)
                   offline)
    ++ [BangumiSubject (JNum 7)].
Proof.
  apply (proj2 (@douban_id_routing
                  same_ToString same_ToNumber
                  (props_of (js "T") (Some 7%Q) None (Some true) None)
                  offline) 7%Q).
  - reflexivity.
  - reflexivity.
  - discriminate.
  - reflexivity.
  - intros H. discriminate H.
Defined.

Lemma bangumi_record_mapping_witness :
  exists resp data,
    bangumi_world (BangumiSubject (JNum 5)) = inr resp
    /\ json resp = inr data
    /\ DetailData.rating bangumi_sample_record
       = (if truthy (prop data (js "rating"))
          then JObj [ (js "value", prop (prop data (js "rating")) (js "score"));
                      (js "count", prop (prop data (js "rating")) (js "total")) ]
          else JUndef)
    /\ (DetailData.genres bangumi_sample_record = JUndef
        \/ exists l, DetailData.genres bangumi_sample_record = JArr l
                     /\ (length l <= 5)%nat)
    /\ DetailData.releaseDate bangumi_sample_record = prop data (js "date")
    /\ ((truthy (prop data (js "date")) = false
         /\ DetailData.year bangumi_sample_record = JUndef)
        \/ exists d, prop data (js "date") = JStr d
                     /\ DetailData.year bangumi_sample_record
                        = JStr (firstn 4 d)
                     /\ (length (firstn 4 d) <= 4)%nat).
Proof.
  apply (@bangumi_record_mapping
           same_ToString same_ToNumber
           (props_of (js "T") None (Some 5%Q) None None) bangumi_world
           (JNum 5) bangumi_sample_record).
  - vm_compute. left. reflexivity.
  - vm_compute. reflexivity.
Defined.

(** The same record, field by field. *)
Example bangumi_record_sample :
  DetailData.rating bangumi_sample_record
  = JObj [(js "value", JNum (81 # 10)); (js "count", JNum 120)]
  /\ DetailData.genres bangumi_sample_record
     = JArr [JStr (js "a"); JStr (js "b"); JStr (js "c"); JStr (js "d");
             JStr (js "e")]
  /\ DetailData.year bangumi_sample_record = JStr (js "2019")
  /\ DetailData.title bangumi_sample_record = JStr (js "剑").
Proof. repeat split. Qed.

Lemma failed_request_ends_run_witness :
  fst (fetchDetail same_ToString same_ToNumber
                   (props_of (js "T") (Some 7%Q) None None None) offline)
  = Failed (Thrown (js "Failed to fetch"))
  /\ exists t,
      snd (fetchDetail same_ToString same_ToNumber
                       (props_of (js "T") (Some 7%Q) None None None) offline)
      = t ++ [DoubanDetail (JNum 7)].
Proof.
  apply (@failed_request_ends_run
           same_ToString same_ToNumber
           (props_of (js "T") (Some 7%Q) None None None) offline
           (DoubanDetail (JNum 7)) (Thrown (js "Failed to fetch"))).
  - vm_compute. left. reflexivity.
  - reflexivity.
  - left. reflexivity.
Defined.


(** The same run, evaluated: the title is the caller's, the count that of
    the body. *)
Example source_detail_sample :
  exists r,
    fetchDetail same_ToString same_ToNumber
                (props_with_source (js "T") None) source_world
    = (Resolved r, [SourceDetail (js "12") (js "cms") (js "T")])
    /\ DetailData.title r = JStr (js "T")
    /\ DetailData.intro r = JStr (js "D")
    /\ DetailData.episodesCount r = JNum 2.
Proof. eexists. split; [vm_compute; reflexivity | repeat split]. Qed.

End DetailPanelExtra.

(** * What the panel shows of a run *)

Module PanelViewFacts.

Import DetailPanel PanelView.

Section Display.

Variable TS : jsval -> jstring.
Variable TN : jsval -> option Q.
Variable type_error_message : jstring.
Variable P : Props.
Variable W : World.

(** X19. While a run is under way the panel shows the spinner and neither
    an error nor a record, whatever an earlier run left.  Once the run is
    over the spinner is gone; a resolved record is shown, without error; a
    failure with a non-empty message shows the message and no record, not
    even the one an earlier run left in the state; a failure with an empty
    message shows no error, and the record of the earlier run instead. *)
Theorem display_of_a_run (st : PanelState) :
  let st0 := begin st in
  let st1 := fst (fetchDetail_state TS TN P W st0) in
  (spinner_shown st0 = true
   /\ error_shown type_error_message st0 = None
   /\ details_shown type_error_message st0 = None)
  /\ spinner_shown st1 = false
  /\ (forall r,
         fst (fetchDetail TS TN P W) = Resolved r ->
         details_shown type_error_message st1 = Some r
         /\ error_shown type_error_message st1 = None)
  /\ (forall e,
         fst (fetchDetail TS TN P W) = Failed e ->
         error_text type_error_message e <> [] ->
         error_shown type_error_message st1
         = Some (error_text type_error_message e)
         /\ details_shown type_error_message st1 = None)
  /\ (forall e,
         fst (fetchDetail TS TN P W) = Failed e ->
         error_text type_error_message e = [] ->
         error_shown type_error_message st1 = None
         /\ details_shown type_error_message st1 = detailData st).
Proof.
  intros st0 st1. subst st0 st1.
  split; [repeat split; reflexivity |].
  unfold fetchDetail_state.
  destruct (fetchDetail TS TN P W) as [[r | e] t]; simpl;
    (split; [reflexivity |]); (split; [| split]).
  - intros r' [= <-]. split; reflexivity.
  - discriminate.
  - discriminate.
  - discriminate.
  - intros e' [= <-] Hne.
    unfold details_shown, error_shown. simpl.
    destruct (error_text type_error_message e); [congruence | auto].
  - intros e' [= <-] He.
    unfold details_shown, error_shown. simpl. now rewrite He.
Qed.

End Display.

(** A refused Douban lookup after a resolved run: the message is shown and
    the earlier record, still in the state, is not. *)
Example stale_record_is_hidden :
  let st1 := fst (fetchDetail_state
                    same_ToString same_ToNumber
                    (props_of (js "T") (Some 7%Q) None None None)
                    (fun _ => refuse) (begin earlier_record)) in
  detailData st1 = detailData earlier_record
  /\ error_shown [] st1 = Some (js "获取豆瓣详情失败")
  /\ details_shown [] st1 = None.
Proof. repeat split. Qed.

End PanelViewFacts.

(** * Properties of the effects of the panel *)

Module PanelEffectsFacts.

Import PanelEffects.

Lemma drop_one {A} (id : positive) (x : A) : drop id [(id, x)] = [].
Proof. unfold drop. simpl. now rewrite Pos.eqb_refl. Qed.

Lemma mount_ok (b : bool) : settled_or_pending (mount b).
Proof.
  destruct b; unfold settled_or_pending, mount, effect; simpl.
  - repeat split; auto. right. eauto.
  - repeat split; auto. right. eauto.
Qed.

Lemma cleanup_frames (s : Anim) :
  settled_or_pending s -> frames (cleanup s) = [].
Proof.
  unfold settled_or_pending, cleanup. simpl.
  destruct (isOpen s).
  - intros (_ & _ & [[-> _] | (id & cb & -> & ->)]).
    + now destruct (animationId s).
    + apply drop_one.
  - intros (_ & -> & _). now destruct (animationId s).
Qed.

Lemma cleanup_timers (s : Anim) :
  settled_or_pending s -> timers (cleanup s) = [].
Proof.
  unfold settled_or_pending, cleanup. simpl.
  destruct (isOpen s).
  - intros (_ & -> & _). now destruct (timer s).
  - intros (_ & _ & [[-> _] | (id & -> & ->)]).
    + now destruct (timer s).
    + apply drop_one.
Qed.

Lemma effect_ok (b : bool) (s : Anim) :
  frames s = [] -> timers s = [] ->
  (b = false -> isOpen s = true -> isVisible s = true) ->
  settled_or_pending (effect b s).
Proof.
  intros Hf Ht Hv. unfold settled_or_pending, effect.
  destruct b; simpl; rewrite Hf, Ht; simpl.
  - repeat split; auto. right. eauto.
  - repeat split; auto. right. eauto.
Qed.

Lemma step_ok (s : Anim) (ev : event) :
  settled_or_pending s -> settled_or_pending (step s ev).
Proof.
  intros H. destruct ev as [b | | id]; simpl.
  - destruct (Bool.eqb b (isOpen s)); [exact H |].
    apply effect_ok.
    + now apply cleanup_frames.
    + now apply cleanup_timers.
    + simpl. intros _ Eo. unfold settled_or_pending in H.
      rewrite Eo in H. apply H.
  - unfold settled_or_pending in *.
    destruct (isOpen s) eqn:Eo.
    + destruct H as (Hv & Ht & [[Hf Ha] | (id & cb & Hf & Hid)]);
        rewrite Hf; simpl; rewrite ?Eo.
      * repeat split; auto.
      * destruct cb; simpl; rewrite ?Eo, ?Nat.eqb_refl.
        -- repeat split; auto. right. eauto.
        -- repeat split; auto.
    + destruct H as (Ha & Hf & Ht). rewrite Hf. simpl. rewrite ?Eo.
      repeat split; auto.
  - unfold settled_or_pending in *.
    destruct (isOpen s) eqn:Eo.
    + destruct H as (Hv & Ht & Hf). rewrite Ht. simpl. rewrite ?Eo.
      repeat split; auto.
    + destruct H as (Ha & Hf & [[Ht Hv] | (id' & Ht & Htm)]);
        rewrite Ht; simpl.
      * rewrite ?Eo. repeat split; auto.
      * destruct (Pos.eqb id' id) eqn:E; simpl; rewrite ?Eo.
        -- apply Pos.eqb_eq in E. subst id'. repeat split; auto.
        -- repeat split; auto. right. eauto.
Qed.

Lemma after_ok (b : bool) (evs : list event) :
  settled_or_pending (after b evs).
Proof.
  unfold after.
  assert (H : forall s, settled_or_pending s ->
                        settled_or_pending (fold_left step evs s)).
  { induction evs as [|ev evs IH]; intros s Hs; [exact Hs |].
    simpl. apply IH. now apply step_ok. }
  apply H, mount_ok.
Qed.

(** X16. Whatever the sequence of openings, closings, frames and timer
    expiries since the component was mounted: the panel animates only while
    it is open and visible, an open panel is visible, and at most one
    callback (frame or timer) is pending, the cleanup having cancelled the
    others. *)
Theorem animation_invariant (b : bool) (evs : list event) :
  (isAnimating (after b evs) = true ->
   isOpen (after b evs) = true /\ isVisible (after b evs) = true)
  /\ (isOpen (after b evs) = true -> isVisible (after b evs) = true)
  /\ (length (frames (after b evs)) + length (timers (after b evs)) <= 1)%nat.
Proof.
  pose proof (after_ok b evs) as H. unfold settled_or_pending in H.
  destruct (isOpen (after b evs)).
  - destruct H as (Hv & Ht & Hf). rewrite Ht.
    repeat split; auto.
    destruct Hf as [[-> _] | (id & cb & -> & _)]; simpl; lia.
  - destruct H as (Ha & Hf & Ht). rewrite Hf, Ha.
    repeat split; try discriminate.
    destruct Ht as [[-> _] | (id & -> & _)]; simpl; lia.
Qed.

Lemma expire_pending (s : Anim) :
  settled_or_pending s ->
  frames (expire s) = frames s /\ timers (expire s) = []
  /\ isOpen (expire s) = isOpen s
  /\ isAnimating (expire s) = isAnimating s
  /\ isVisible (expire s) = (isVisible s && isOpen s)%bool.
Proof.
  unfold settled_or_pending, expire.
  destruct (isOpen s) eqn:Eo.
  - intros (Hv & Ht & _). rewrite Ht. simpl.
    rewrite Ht, Hv, Eo. auto.
  - intros (_ & _ & [[Ht Hv] | (id & Ht & _)]); rewrite Ht; simpl.
    + rewrite Ht, Hv, Eo. auto.
    + rewrite Ht. simpl. rewrite Pos.eqb_refl. simpl.
      rewrite Eo, andb_false_r. repeat split; auto.
Qed.

Lemma two_frames (s : Anim) :
  settled_or_pending s ->
  let s' := step (step s Frame) Frame in
  frames s' = [] /\ timers s' = timers s /\ isOpen s' = isOpen s
  /\ isVisible s' = isVisible s /\ isAnimating s' = isOpen s.
Proof.
  unfold settled_or_pending.
  destruct (isOpen s) eqn:Eo.
  - intros (Hv & Ht & [[Hf Ha] | (id & cb & Hf & Hid)]); simpl;
      rewrite Hf; simpl.
    + rewrite Eo, Ha. auto.
    + destruct cb; simpl; rewrite ?Eo; auto.
  - intros (Ha & Hf & _). simpl. rewrite Hf. simpl. rewrite Eo, Ha. auto.
Qed.

(** X17. From any state that can be reached, two frames and the expiry of
    the pending timer settle the panel: nothing is left pending, and the
    panel is visible and animating exactly when it is open. *)
Theorem animation_settles (b : bool) (evs : list event) :
  let s := after b evs in
  let s' := expire (step (step s Frame) Frame) in
  frames s' = [] /\ timers s' = []
  /\ isOpen s' = isOpen s
  /\ isVisible s' = isOpen s /\ isAnimating s' = isOpen s.
Proof.
  intros s s'.
  pose proof (after_ok b evs) as Hs. fold s in Hs.
  pose proof (@two_frames _ Hs) as (Hf & Ht & Ho & Hv & Ha).
  assert (Hs2 : settled_or_pending (step (step s Frame) Frame))
    by (do 2 apply step_ok; exact Hs).
  pose proof (@expire_pending _ Hs2) as (Hf' & Ht' & Ho' & Ha' & Hv').
  fold s' in Hf', Ht', Ho', Ha', Hv'.
  rewrite Hf', Ht', Ho', Ha', Hv', Hf, Ho, Hv, Ha.
  repeat split; auto.
  unfold settled_or_pending in Hs.
  destruct (isOpen s); [| apply andb_false_r].
  destruct Hs as (-> & _). reflexivity.
Qed.

(** The panel is opened, closed before its second frame, and opened again
    before the timer runs out: the stale frame callback and the stale timer
    do nothing. *)
Example hurried_user :
  let s := after false [SetOpen true; Frame; SetOpen false; Frame; Frame;
                        SetOpen true; Timeout 1; Timeout 4; Frame] in
  isVisible s = true /\ isAnimating s = false
  /\ frames s = [(6%positive, (4%nat, Second))] /\ timers s = [].
Proof. repeat split. Qed.

(** *** The scroll lock *)

Lemma set_same (k v : string) (s : Style) : set k v s k = v.
Proof. unfold set. now rewrite String.eqb_refl. Qed.

Lemma set_other (k k' v : string) (s : Style) :
  k' <> k -> set k v s k' = s k'.
Proof. unfold set. intros H. apply String.eqb_neq in H. now rewrite H. Qed.

(** X18. The cleanup of the scroll lock undoes the lock: whatever else was
    written to the style in between, each of the seven properties the lock
    writes gets back the value it had before the lock, every other property
    is left as it is, and the page is scrolled to the position read when
    the lock was taken.  Taken right after the lock, the cleanup gives back
    the style as it was. *)
Theorem unlock_restores (num : Q -> string) (w : Window) (s now : Style) :
  (forall k,
      fst (unlock (snd (lock num w s)) now) k
      = if existsb (String.eqb k) locked_properties then s k else now k)
  /\ (forall k, fst (unlock (snd (lock num w s)) (fst (lock num w s))) k = s k)
  /\ snd (unlock (snd (lock num w s)) now) = (scrollX w, scrollY w).
Proof.
  assert (H : forall now k,
             fst (unlock (snd (lock num w s)) now) k
             = if existsb (String.eqb k) locked_properties
               then s k else now k).
  { intros now' k. unfold unlock, lock, locked_properties. simpl.
    unfold set.
    repeat match goal with
           | |- context [String.eqb k ?x] =>
             destruct (String.eqb_spec k x); [subst k; reflexivity |]
           end.
    reflexivity. }
  split; [apply H |]. split; [| reflexivity].
  intros k. rewrite H.
  destruct (existsb (String.eqb k) locked_properties) eqn:E; [reflexivity |].
  unfold lock, locked_properties in *. simpl in *.
  unfold set.
  repeat match goal with
         | |- context [String.eqb k ?x] =>
           destruct (String.eqb k x); [discriminate |]
         end.
  reflexivity.
Qed.

End PanelEffectsFacts.
